(** * QNN log parser: a shallow embedding of [qnn_log_parser.py]

    The development follows the structure of the Python class
    [QNNLogParser]: the label scan ([extract_strings_and_positions]),
    the offset probe ([extract_value_at_offset]), the nested offset
    search ([extract_metric_value]), the report builder ([parse_file])
    the derived metrics ([calculate_derived_metrics]) and the CSV
    renderer ([format_csv_output]).

    Modelling conventions.
    - A Python [bytes] object is a [list byte]; iterating it yields the
      integers [byte_val b] in [0, 255].
    - Python integers are [Z]; positions and deltas are therefore [Z].
    - A Python [dict] keeps insertion order, which the report depends on,
      so a dict is an association list in insertion order ([dict]).
    - Exceptions are explicit: a computation that can raise returns a
      [result]; [try ... except] is a match on the raised exception.
    - Python [float] values and their arithmetic (binary64 rounding) are
      an interface of the model ([float_runtime]): the statements hold
      for whatever the runtime computes.  What the interpreter decides
      on integers is modelled: [ZeroDivisionError] on a zero divisor and
      [OverflowError] when an integer or an integer quotient is beyond
      the float range. *)

From Stdlib Require Import ZArith List String Ascii Lia Bool QArith Sorted.
From Stdlib.Strings Require Import Byte.
From Stdlib Require Import Hexadecimal HexadecimalString HexadecimalN.
From Stdlib Require Import Permutation.
From Stdlib Require DecimalString.
Import ListNotations.

Local Open Scope string_scope.
Local Open Scope list_scope.
Local Open Scope Z_scope.

Set Implicit Arguments.

(* ================================================================== *)
(** ** Exceptions and the error monad *)

Inductive exn : Type :=
| StructError
| IndexError
| KeyError
| ZeroDivisionError
| OverflowError.

Inductive result (A : Type) : Type :=
| Ok (a : A)
| Raise (e : exn).

Arguments Ok {A} a.
Arguments Raise {A} e.

Definition bind {A B : Type} (r : result A) (k : A -> result B) : result B :=
  match r with
  | Ok a => k a
  | Raise e => Raise e
  end.

Notation "x <- e ;; k" := (bind e (fun x => k))
  (at level 61, e at next level, right associativity).

(* ================================================================== *)
(** ** Python containers *)

(** [dict]: string-keyed dictionary, entries in insertion order. *)
Definition dict (V : Type) : Type := list (string * V).

Section Dict.
Variable V : Type.

Fixpoint dict_get (k : string) (d : dict V) : option V :=
  match d with
  | [] => None
  | (k', v) :: d' => if String.eqb k k' then Some v else dict_get k d'
  end.

(** [k in d] *)
Definition dict_mem (k : string) (d : dict V) : bool :=
  match dict_get k d with Some _ => true | None => false end.

(** [d[k] = v]: overwrite in place, or append a new entry at the end. *)
Fixpoint dict_set (k : string) (v : V) (d : dict V) : dict V :=
  match d with
  | [] => [(k, v)]
  | (k', v') :: d' =>
      if String.eqb k k' then (k', v) :: d' else (k', v') :: dict_set k v d'
  end.

(** [d[k]] as an expression: raises [KeyError] on a missing key. *)
Definition dict_item (k : string) (d : dict V) : result V :=
  match dict_get k d with
  | Some v => Ok v
  | None => Raise KeyError
  end.

Definition dict_keys (d : dict V) : list string := map fst d.
End Dict.

(** [d[k].append(x)].  Python raises [KeyError] when [k] is missing; the
    only caller, [record_occurrence], creates the entry first. *)
Fixpoint dict_append {A : Type} (k : string) (x : A) (d : dict (list A))
    : dict (list A) :=
  match d with
  | [] => []
  | (k', l) :: d' =>
      if String.eqb k k' then (k', l ++ [x]) :: d'
      else (k', l) :: dict_append k x d'
  end.

(** [l[lo:hi]] with Python's treatment of negative and oversized bounds. *)
Definition clamp_index (len i : Z) : Z :=
  if i <? 0 then Z.max (i + len) 0 else Z.min i len.

(** [len(l)] *)
Definition len {A : Type} (l : list A) : Z := Z.of_nat (List.length l).

Definition py_slice {A : Type} (l : list A) (lo hi : Z) : list A :=
  let lo' := clamp_index (len l) lo in
  let hi' := clamp_index (len l) hi in
  firstn (Z.to_nat (hi' - lo')) (skipn (Z.to_nat lo') l).

(** [l[i]] for a non-negative index; raises [IndexError] out of range. *)
Definition list_item {A : Type} (l : list A) (i : nat) : result A :=
  match nth_error l i with
  | Some x => Ok x
  | None => Raise IndexError
  end.

(** [needle in hay] on strings. *)
Fixpoint str_contains (needle hay : string) : bool :=
  String.prefix needle hay
  || match hay with
     | EmptyString => false
     | String _ hay' => str_contains needle hay'
     end.

(** [enumerate(l)] *)
Fixpoint enumerate_from {A : Type} (i : Z) (l : list A) : list (Z * A) :=
  match l with
  | [] => []
  | x :: l' => (i, x) :: enumerate_from (i + 1) l'
  end.

Definition enumerate {A : Type} (l : list A) : list (Z * A) :=
  enumerate_from 0 l.

(* ================================================================== *)
(** ** Bytes *)

(** The integer a byte iterates as. *)
Definition byte_val (b : byte) : Z := Z.of_N (Byte.to_N b).

(** [chr(byte)] *)
Definition chr (b : byte) : ascii := ascii_of_byte b.

(** [struct.unpack('<I', bs)[0]]: needs exactly four bytes. *)
Definition struct_unpack_I (bs : list byte) : result Z :=
  match bs with
  | [b0; b1; b2; b3] =>
      Ok (byte_val b0 + byte_val b1 * 256
          + byte_val b2 * 65536 + byte_val b3 * 16777216)
  | _ => Raise StructError
  end.

(* ================================================================== *)
(** ** The metric definition table ([__init__]) *)

Record pattern_info : Type := mk_pattern_info {
  pi_key : string;
  pi_unit : string;
  pi_type : string
}.

Definition timing_us (k : string) : pattern_info :=
  mk_pattern_info k "microseconds" "timing".

Definition counter (k : string) : pattern_info :=
  mk_pattern_info k "count" "counter".

Definition metric_patterns : dict pattern_info :=
  [ ("QNN (deinit) time", timing_us "qnn_deinit_time_us");
    ("Accelerator (deinit) time", timing_us "accelerator_deinit_time_us");
    ("QNN Accelerator (deinit) time",
       timing_us "qnn_accelerator_deinit_time_us");
    ("RPC (deinit) time", timing_us "rpc_deinit_time_us");
    ("QNN (execute) time", timing_us "qnn_execute_time_us");
    ("Accelerator (execute excluding wait) time",
       timing_us "accelerator_execute_excluding_wait_time_us");
    ("Accelerator (execute) time", timing_us "accelerator_execute_time_us");
    ("QNN accelerator (execute) time",
       timing_us "qnn_accelerator_execute_time_us");
    ("RPC (execute) time", timing_us "rpc_execute_time_us");
    ("QNN (finalize) time", timing_us "qnn_finalize_time_us");
    ("Accelerator (finalize) time", timing_us "accelerator_finalize_time_us");
    ("QNN accelerator (finalize) time",
       timing_us "qnn_accelerator_finalize_time_us");
    ("RPC (finalize) time", timing_us "rpc_finalize_time_us");
    ("duration", timing_us "duration_us");
    ("numInferences", counter "num_inferences");
    ("Number of HVX threads used", counter "hvx_threads_used") ].

(* ================================================================== *)
(** ** [extract_value_at_offset] *)

Definition extract_value_at_offset
    (data : list byte) (position offset : Z) : result (option Z) :=
  let value_pos := position + offset in
  let body :=
    if (0 <=? value_pos) && (value_pos <=? len data - 4) then
      value <- struct_unpack_I (py_slice data value_pos (value_pos + 4)) ;;
      Ok (Some value)
    else Ok None in
  match body with
  | Raise StructError | Raise IndexError => Ok None
  | r => r
  end.

(* ================================================================== *)
(** ** [extract_metric_value] *)

Definition search_offsets : list Z :=
  [ (* Common positive offsets *)
    16; 20; 28; 36; 40; 52; 56; 64;
    (* Common negative offsets *)
    -12; -16; -20; -28; -36; -40; -52; -56; -64; -68; -72; -76; -80; -84;
    -88; -92; -96; -100;
    (* Additional offsets for edge cases *)
    8; 12; 24; 32; 44; 48; 60; 68; 72; 76; 80; 84; 88; 92; 96; 100 ].

(** The basic validation: [true] when the loop body executes [continue]. *)
Definition rejected (pattern_type : string) (value : Z) : bool :=
  if String.eqb pattern_type "counter" then value >? 1000000
  else if String.eqb pattern_type "timing" then value >? 10000000
  else false.

(** The inner loop, [for offset in search_offsets], at one [string_pos];
    [Some (value, offset)] is the [return] inside the loop, [None] is the
    loop running to its end. *)
Fixpoint try_offsets (data : list byte) (pattern_type : string)
    (string_pos : Z) (offsets : list Z) : result (option (Z * Z)) :=
  match offsets with
  | [] => Ok None
  | offset :: offsets' =>
      value <- extract_value_at_offset data string_pos offset ;;
      match value with
      | Some v =>
          if rejected pattern_type v
          then try_offsets data pattern_type string_pos offsets'
          else Ok (Some (v, offset))
      | None => try_offsets data pattern_type string_pos offsets'
      end
  end.

(** The outer loop, [for string_pos in string_positions]. *)
Fixpoint try_positions (data : list byte) (pattern_type : string)
    (string_positions : list Z) : result (option Z * Z) :=
  match string_positions with
  | [] => Ok (None, -1)
  | string_pos :: rest =>
      r <- try_offsets data pattern_type string_pos search_offsets ;;
      match r with
      | Some (v, offset) => Ok (Some v, offset)
      | None => try_positions data pattern_type rest
      end
  end.

Definition extract_metric_value (data : list byte)
    (string_positions : list Z) (info : pattern_info)
    : result (option Z * Z) :=
  let pattern_type := pi_type info in
  try_positions data pattern_type string_positions.

(* ================================================================== *)
(** ** [extract_strings_and_positions] *)

Record scan_state : Type := mk_scan_state {
  strings_positions : dict (list Z);
  current_string : string;
  start_pos : Z
}.

(** The three lines
    [if s not in strings_positions: strings_positions[s] = []]
    [strings_positions[s].append(pos)]. *)
Definition record_occurrence (sp : dict (list Z)) (s : string) (pos : Z)
    : dict (list Z) :=
  let sp1 := if negb (dict_mem s sp) then dict_set s [] sp else sp in
  dict_append s pos sp1.

(** [if len(current_string) >= 3: ...], shared by the loop body and the
    handling of the final string. *)
Definition flush (sp : dict (list Z)) (cur : string) (start : Z)
    : dict (list Z) :=
  if (3 <=? String.length cur)%nat then record_occurrence sp cur start
  else sp.

Definition printable (b : byte) : bool :=
  (32 <=? byte_val b) && (byte_val b <=? 126).

(** One iteration of [for i, byte in enumerate(data)]. *)
Definition scan_step (st : scan_state) (ib : Z * byte) : scan_state :=
  let '(i, b) := ib in
  if printable b then
    let start :=
      if String.eqb (current_string st) "" then i else start_pos st in
    mk_scan_state (strings_positions st)
                  (current_string st ++ String (chr b) "")%string
                  start
  else
    mk_scan_state
      (flush (strings_positions st) (current_string st) (start_pos st))
      ""
      (start_pos st).

Definition scan_init : scan_state := mk_scan_state [] "" 0.

Definition scan_loop (data : list byte) : scan_state :=
  fold_left scan_step (enumerate data) scan_init.

Definition extract_strings_and_positions (data : list byte)
    : dict (list Z) :=
  let st := scan_loop data in
  (* Handle final string *)
  flush (strings_positions st) (current_string st) (start_pos st).

(* ================================================================== *)
(** ** [parse_file] *)

(** [f"{n:04x}"]: lower-case hexadecimal, zero-padded to width 4, the
    sign counting towards the width. *)
Definition hex_digits (n : N) : string :=
  NilEmpty.string_of_uint (N.to_hex_uint n).

Fixpoint zeros (k : nat) : string :=
  match k with
  | O => ""
  | S k' => String "0" (zeros k')
  end.

Definition zfill (width : nat) (s : string) : string :=
  (zeros (width - String.length s) ++ s)%string.

Definition format_04x (n : Z) : string :=
  if n <? 0 then ("-" ++ zfill 3 (hex_digits (Z.to_N (- n))))%string
  else zfill 4 (hex_digits (Z.to_N n)).

Record FileInfo : Type := mk_FileInfo {
  fi_path : string;
  fi_size_bytes : Z;
  fi_backend_version : string;
  fi_graph_name : string
}.

Record ExtractionInfo : Type := mk_ExtractionInfo {
  ei_strings_found : Z;
  ei_metrics_extracted : Z;
  ei_failed_extractions : list string
}.

Record Detail : Type := mk_Detail {
  d_pattern : string;
  d_key : string;
  d_value : Z;
  d_string_position : string;
  d_offset_used : Z;
  d_extraction_position : string;
  d_unit : string;
  d_type : string
}.

Record Results : Type := mk_Results {
  file_info : FileInfo;
  extraction_info : ExtractionInfo;
  metrics : dict Z;
  raw_extraction_details : list Detail
}.

(** One iteration of [for string_val, positions in strings_positions.items()];
    the accumulator is [(backend_version, graph_name)]. *)
Definition metadata_step (acc : string * string) (item : string * list Z)
    : string * string :=
  let '(string_val, _) := item in
  if str_contains "v2.35.0" string_val then (string_val, snd acc)
  else if str_contains "_quantized_htp" string_val
          || str_contains "_quantized_cpu" string_val
          || str_contains "_quantized_gpu" string_val
       then (fst acc, string_val)
  else acc.

Definition extract_metadata (sp : dict (list Z)) : string * string :=
  fold_left metadata_step sp ("", "").

(** The part of [results] that the metric loop mutates. *)
Record parse_state : Type := mk_parse_state {
  ps_metrics : dict Z;
  ps_extracted_count : Z;
  ps_details : list Detail;
  ps_failed : list string
}.

(** One iteration of
    [for pattern_name, pattern_info in self.metric_patterns.items()]. *)
Definition parse_step (data : list byte) (sp : dict (list Z))
    (st : parse_state) (entry : string * pattern_info) : result parse_state :=
  let '(pattern_name, info) := entry in
  if dict_mem pattern_name sp then
    positions <- dict_item pattern_name sp ;;
    r <- extract_metric_value data positions info ;;
    let '(value, offset_used) := r in
    match value with
    | Some v =>
        let key := pi_key info in
        let metrics' := dict_set key v (ps_metrics st) in
        (* Store extraction details (using first position for reporting) *)
        p0 <- list_item positions 0 ;;
        p0' <- list_item positions 0 ;;
        Ok (mk_parse_state
              metrics'
              (ps_extracted_count st + 1)
              (ps_details st ++
                 [mk_Detail pattern_name key v
                            ("0x" ++ format_04x p0)%string
                            offset_used
                            ("0x" ++ format_04x (p0' + offset_used))%string
                            (pi_unit info) (pi_type info)])
              (ps_failed st))
    | None =>
        Ok (mk_parse_state (ps_metrics st) (ps_extracted_count st)
                           (ps_details st) (ps_failed st ++ [pattern_name]))
    end
  else Ok st.

Fixpoint parse_loop (data : list byte) (sp : dict (list Z))
    (entries : dict pattern_info) (st : parse_state) : result parse_state :=
  match entries with
  | [] => Ok st
  | entry :: entries' =>
      st' <- parse_step data sp st entry ;;
      parse_loop data sp entries' st'
  end.

(** [parse_file], from the point where the file content [data] has been
    read. *)
Definition parse_file (file_path : string) (data : list byte)
    : result Results :=
  let sp := extract_strings_and_positions data in
  let '(backend_version, graph_name) := extract_metadata sp in
  st <- parse_loop data sp metric_patterns (mk_parse_state [] 0 [] []) ;;
  Ok (mk_Results
        (mk_FileInfo file_path (len data) backend_version graph_name)
        (mk_ExtractionInfo (len sp) (ps_extracted_count st) (ps_failed st))
        (ps_metrics st)
        (ps_details st)).

(* ================================================================== *)
(** ** Python numbers *)

(** The float arithmetic of the Python runtime (IEEE binary64) is not
    part of the program; the model takes it as an interface.  Nothing
    is assumed about the operations: every statement about the derived
    metrics holds for whatever the runtime computes. *)
Record float_runtime : Type := mk_float_runtime {
  float : Type;
  (** [float(z)] for an integer in the float range *)
  float_of_int : Z -> float;
  (** [a / b] for integers [a], [b]: the quotient rounded to a float *)
  float_div_int : Z -> Z -> float;
  (** [x / y] and [x * y] on floats *)
  float_div : float -> float -> float;
  float_mul : float -> float -> float;
  (** [x == 0] and [x > 0] *)
  float_is_zero : float -> bool;
  float_gt0 : float -> bool;
  (** [str(x)] *)
  float_str : float -> string
}.

(** A magnitude of this size or more rounds beyond the largest float:
    converting such an integer, or dividing integers with such a
    quotient, raises [OverflowError]. *)
Definition float_overflow : Z := 2 ^ 1024 - 2 ^ 970.

Section Numbers.
Variable R : float_runtime.

(** A derived value is an [int] or a [float]. *)
Inductive number : Type :=
| PyInt (z : Z)
| PyFloat (x : float R).

(** The conversion of an operand to float in mixed arithmetic. *)
Definition to_float (n : number) : result (float R) :=
  match n with
  | PyInt z =>
      if float_overflow <=? Z.abs z then Raise OverflowError
      else Ok (float_of_int R z)
  | PyFloat x => Ok x
  end.

(** [n > 0] *)
Definition num_gt0 (n : number) : bool :=
  match n with
  | PyInt z => 0 <? z
  | PyFloat x => float_gt0 R x
  end.

(** [a * b] *)
Definition num_mul (a b : number) : result number :=
  match a, b with
  | PyInt x, PyInt y => Ok (PyInt (x * y))
  | _, _ =>
      x <- to_float a ;;
      y <- to_float b ;;
      Ok (PyFloat (float_mul R x y))
  end.

(** [a / b], true division.  Two integers: [ZeroDivisionError] on a zero
    divisor, [OverflowError] when the quotient is beyond the float range,
    otherwise the rounded quotient.  With a float operand: the operands
    are converted, and a zero divisor raises [ZeroDivisionError]. *)
Definition num_truediv (a b : number) : result number :=
  match a, b with
  | PyInt x, PyInt y =>
      if y =? 0 then Raise ZeroDivisionError
      else if float_overflow * Z.abs y <=? Z.abs x then Raise OverflowError
      else Ok (PyFloat (float_div_int R x y))
  | _, _ =>
      x <- to_float a ;;
      y <- to_float b ;;
      if float_is_zero R y then Raise ZeroDivisionError
      else Ok (PyFloat (float_div R x y))
  end.
End Numbers.

Arguments PyInt {R} z.
Arguments PyFloat {R} x.

(* ================================================================== *)
(** ** [calculate_derived_metrics] *)

(** Computations of [calculate_derived_metrics] run in the error monad
    extended with a trace: the divisors of the divisions performed, in
    execution order. *)
Definition traced (N A : Type) : Type := (list N * result A)%type.

Definition tret {N A : Type} (a : A) : traced N A := ([], Ok a).

Definition tbind {N A B : Type} (m : traced N A) (k : A -> traced N B)
    : traced N B :=
  match m with
  | (t, Ok a) => let '(t', r) := k a in (t ++ t', r)
  | (t, Raise e) => (t, Raise e)
  end.

Definition lift {N A : Type} (r : result A) : traced N A := ([], r).

Notation "x <~ e ;; k" := (tbind e (fun x => k))
  (at level 61, e at next level, right associativity).

(** [sum(l)] *)
Definition py_sum (l : list Z) : Z := fold_left Z.add l 0.

(** Component timing analysis: one iteration of
    [for key, value in metrics.items()]; the accumulator is
    [(execution_times, finalize_times, deinit_times)]. *)
Definition bucket_step (acc : list Z * list Z * list Z) (kv : string * Z)
    : list Z * list Z * list Z :=
  let '(execution_times, finalize_times, deinit_times) := acc in
  let '(key, value) := kv in
  if str_contains "execute" key && str_contains "time_us" key then
    (execution_times ++ [value], finalize_times, deinit_times)
  else if str_contains "finalize" key && str_contains "time_us" key then
    (execution_times, finalize_times ++ [value], deinit_times)
  else if str_contains "deinit" key && str_contains "time_us" key then
    (execution_times, finalize_times, deinit_times ++ [value])
  else acc.

Definition buckets (metrics : dict Z) : list Z * list Z * list Z :=
  fold_left bucket_step metrics ([], [], []).

Section Derived.
Variable R : float_runtime.

(** A division as a step of the calculation: the divisor is traced. *)
Definition truediv (a b : number R) : traced (number R) (number R) :=
  ([b], num_truediv a b).

(** Primary execution time *)
Definition derive_primary (metrics : dict Z) (derived : dict (number R))
    : traced (number R) (dict (number R)) :=
  if dict_mem "qnn_execute_time_us" metrics then
    v <~ lift (dict_item "qnn_execute_time_us" metrics) ;;
    tret (dict_set "primary_execution_time_us" (PyInt v) derived)
  else if dict_mem "accelerator_execute_time_us" metrics then
    v <~ lift (dict_item "accelerator_execute_time_us" metrics) ;;
    tret (dict_set "primary_execution_time_us" (PyInt v) derived)
  else tret derived.

(** Throughput calculations *)
Definition derive_throughput (metrics : dict Z) (derived : dict (number R))
    : traced (number R) (dict (number R)) :=
  if dict_mem "primary_execution_time_us" derived
     && dict_mem "num_inferences" metrics then
    exec_time <~ lift (dict_item "primary_execution_time_us" derived) ;;
    num_inf <~ lift (dict_item "num_inferences" metrics) ;;
    if num_gt0 exec_time && (0 <? num_inf) then
      t <~ truediv (PyInt (1000000 * num_inf)) exec_time ;;
      let derived := dict_set "throughput_inferences_per_second" t derived in
      a <~ truediv exec_time (PyInt num_inf) ;;
      tret (dict_set "avg_time_per_inference_us" a derived)
    else tret derived
  else tret derived.

(** [if times: derived[total] = sum(times); derived[avg] = sum/len] *)
Definition derive_bucket (total_key avg_key : string) (times : list Z)
    (derived : dict (number R)) : traced (number R) (dict (number R)) :=
  match times with
  | [] => tret derived
  | _ :: _ =>
      let derived := dict_set total_key (PyInt (py_sum times)) derived in
      a <~ truediv (PyInt (py_sum times)) (PyInt (len times)) ;;
      tret (dict_set avg_key a derived)
  end.

(** Efficiency calculations *)
Definition derive_efficiency (metrics : dict Z) (derived : dict (number R))
    : traced (number R) (dict (number R)) :=
  if dict_mem "accelerator_execute_time_us" metrics
     && dict_mem "qnn_execute_time_us" metrics then
    q <~ lift (dict_item "qnn_execute_time_us" metrics) ;;
    if 0 <? q then
      a <~ lift (dict_item "accelerator_execute_time_us" metrics) ;;
      q' <~ lift (dict_item "qnn_execute_time_us" metrics) ;;
      r <~ truediv (PyInt a) (PyInt q') ;;
      efficiency <~ lift (num_mul r (PyInt 100)) ;;
      tret (dict_set "accelerator_efficiency_percent" efficiency derived)
    else tret derived
  else tret derived.

(** RPC overhead analysis *)
Definition derive_rpc_overhead (metrics : dict Z) (derived : dict (number R))
    : traced (number R) (dict (number R)) :=
  if dict_mem "rpc_execute_time_us" metrics
     && dict_mem "accelerator_execute_time_us" metrics then
    a <~ lift (dict_item "accelerator_execute_time_us" metrics) ;;
    if 0 <? a then
      r <~ lift (dict_item "rpc_execute_time_us" metrics) ;;
      a' <~ lift (dict_item "accelerator_execute_time_us" metrics) ;;
      overhead_ratio <~ truediv (PyInt r) (PyInt a') ;;
      tret (dict_set "rpc_overhead_ratio" overhead_ratio derived)
    else tret derived
  else tret derived.

Definition calculate_derived_metrics (metrics : dict Z)
    : traced (number R) (dict (number R)) :=
  let derived := [] in
  derived <~ derive_primary metrics derived ;;
  derived <~ derive_throughput metrics derived ;;
  let '(execution_times, finalize_times, deinit_times) := buckets metrics in
  derived <~ derive_bucket "total_execution_time_us" "avg_execution_time_us"
                           execution_times derived ;;
  derived <~ derive_bucket "total_finalize_time_us" "avg_finalize_time_us"
                           finalize_times derived ;;
  derived <~ derive_bucket "total_deinit_time_us" "avg_deinit_time_us"
                           deinit_times derived ;;
  derived <~ derive_efficiency metrics derived ;;
  derive_rpc_overhead metrics derived.
End Derived.

(* ================================================================== *)
(** ** [format_csv_output] *)





(** [str(z)] of an integer. *)
Definition str_int (z : Z) : string :=
  DecimalString.NilZero.string_of_int (Z.to_int z).

Section Rendering.
Variable R : float_runtime.



End Rendering.

(* ================================================================== *)
(** * Specification vocabulary

    The notions the statements below are written in: what a probe reads,
    the order of the search, what the scan guarantees, what the report
    records, and the inputs the examples use. *)

(** The value the four bytes at [pos .. pos+3] encode, least significant
    byte first (bytes beyond the end of the buffer read as zero here; the
    probe never asks for them). *)
Definition byte_at (data : list byte) (i : Z) : Z :=
  byte_val (nth (Z.to_nat i) data x00).

Definition u32_le_at (data : list byte) (pos : Z) : Z :=
  byte_at data pos + byte_at data (pos + 1) * 2 ^ 8
  + byte_at data (pos + 2) * 2 ^ 16 + byte_at data (pos + 3) * 2 ^ 24.

(** [in_window data pos]: the window [pos, pos+4) lies inside the buffer. *)
Definition in_window (data : list byte) (pos : Z) : bool :=
  (0 <=? pos) && (pos <=? len data - 4).

(** The literal sequence of the specification, in probe order. *)
Definition literal_delta_sequence : list Z :=
  [16; 20; 28; 36; 40; 52; 56; 64; -12; -16; -20; -28; -36; -40; -52; -56;
   -64; -68; -72; -76; -80; -84; -88; -92; -96; -100; 8; 12; 24; 32; 44; 48;
   60; 68; 72; 76; 80; 84; 88; 92; 96; 100].

(** The (occurrence, delta) pairs in the nested order of the search:
    occurrences in the order given (outer), deltas in table order
    (inner). *)
Definition probe_pairs (positions : list Z) : list (Z * Z) :=
  flat_map (fun p => map (fun d => (p, d)) search_offsets) positions.

(** The value the pair yields when the probe succeeds and the value
    passes the validation of the metric's kind. *)
Definition accepted_value (data : list byte) (ty : string) (pd : Z * Z)
    : option Z :=
  if in_window data (fst pd + snd pd) then
    if rejected ty (u32_le_at data (fst pd + snd pd)) then None
    else Some (u32_le_at data (fst pd + snd pd))
  else None.

(** The first pair of a list with an accepted value, with that value. *)
Fixpoint first_accepted (data : list byte) (ty : string)
    (pairs : list (Z * Z)) : option (Z * Z * Z) :=
  match pairs with
  | [] => None
  | pd :: rest =>
      match accepted_value data ty pd with
      | Some v => Some (pd, v)
      | None => first_accepted data ty rest
      end
  end.

(** What the search reports for the outcome of [first_accepted]. *)
Definition search_outcome (r : option (Z * Z * Z)) : option Z * Z :=
  match r with
  | Some ((_, d), v) => (Some v, d)
  | None => (None, -1)
  end.

(** The buffer of the two-occurrence scenario: the label [duration] at
    offsets 10 and 200, the little-endian encoding of 500 at offset 188,
    and bytes [0xff] everywhere else. *)
Definition two_occurrence_buffer : list byte :=
  repeat xff 10 ++ list_byte_of_string "duration" ++ repeat xff 170
  ++ [xf4; x01; x00; x00] ++ repeat xff 8 ++ list_byte_of_string "duration".

(** The text of a run of bytes. *)
Definition str_of_bytes (run : list byte) : string :=
  string_of_list_ascii (map chr run).

Definition printable_ascii (c : ascii) : Prop :=
  32 <= Z.of_N (N_of_ascii c) <= 126.

Definition printable_string (s : string) : Prop :=
  Forall printable_ascii (list_ascii_of_string s).

(** [occurs_at data o s]: the characters of [s] are the bytes of [data]
    at indices [o .. o + len(s) - 1]. *)
Definition occurs_at (data : list byte) (o : Z) (s : string) : Prop :=
  exists before bytes after,
    data = before ++ bytes ++ after
    /\ len before = o
    /\ str_of_bytes bytes = s.

(** What the scan guarantees for an entry of the map whose occurrences
    all end at or before [bound]. *)
Definition entry_ok (data : list byte) (bound : Z) (e : string * list Z)
    : Prop :=
  (3 <= String.length (fst e))%nat
  /\ printable_string (fst e)
  /\ snd e <> []
  /\ StronglySorted Z.lt (snd e)
  /\ Forall (fun o => occurs_at data o (fst e)
                      /\ o + Z.of_nat (String.length (fst e)) <= bound)
            (snd e).

(** The loop invariant of the scan, after the prefix [pre] of the buffer:
    [pre] ends with the printable run under construction, and the map
    holds sound entries that end before that run. *)
Definition scan_inv (pre : list byte) (st : scan_state) : Prop :=
  NoDup (dict_keys (strings_positions st))
  /\ exists before run,
       pre = before ++ run
       /\ Forall (fun b => printable b = true) run
       /\ current_string st = str_of_bytes run
       /\ (run <> [] -> start_pos st = len before)
       /\ Forall (entry_ok pre (len before)) (strings_positions st).

(** The outcome of the search of one metric, as a pure function. *)
Definition reading (data : list byte) (positions : list Z)
    (info : pattern_info) : option Z * Z :=
  search_outcome (first_accepted data (pi_type info) (probe_pairs positions)).

(** The state after one iteration of the metric loop; [positions[0]] is
    [hd 0 positions], the list being non-empty whenever it is read. *)
Definition parse_step_outcome (data : list byte) (sp : dict (list Z))
    (st : parse_state) (entry : string * pattern_info) : parse_state :=
  match dict_get (fst entry) sp with
  | None => st
  | Some positions =>
      match reading data positions (snd entry) with
      | (Some v, offset_used) =>
          mk_parse_state
            (dict_set (pi_key (snd entry)) v (ps_metrics st))
            (ps_extracted_count st + 1)
            (ps_details st ++
               [mk_Detail (fst entry) (pi_key (snd entry)) v
                  ("0x" ++ format_04x (hd 0 positions))%string
                  offset_used
                  ("0x" ++ format_04x (hd 0 positions + offset_used))%string
                  (pi_unit (snd entry)) (pi_type (snd entry))])
            (ps_failed st)
      | (None, _) =>
          mk_parse_state (ps_metrics st) (ps_extracted_count st)
                         (ps_details st) (ps_failed st ++ [fst entry])
      end
  end.

Definition final_state (data : list byte) : parse_state :=
  fold_left (parse_step_outcome data (extract_strings_and_positions data))
            metric_patterns (mk_parse_state [] 0 [] []).

(** The label was found and its search accepted a value. *)
Definition succeeded (data : list byte) (sp : dict (list Z))
    (entry : string * pattern_info) : bool :=
  match dict_get (fst entry) sp with
  | Some positions =>
      match fst (reading data positions (snd entry)) with
      | Some _ => true
      | None => false
      end
  | None => false
  end.

(** The label was found and its search accepted nothing. *)
Definition found_without_value (data : list byte) (sp : dict (list Z))
    (entry : string * pattern_info) : bool :=
  match dict_get (fst entry) sp with
  | Some positions =>
      match fst (reading data positions (snd entry)) with
      | Some _ => false
      | None => true
      end
  | None => false
  end.

(** The number a recorded position field denotes: the inverse of the
    rendering [f"0x{n:04x}"]. *)
Definition hex_N (ds : string) : option N :=
  option_map N.of_hex_uint (NilEmpty.uint_of_string ds).

Definition parse_hex_field (s : string) : option Z :=
  match s with
  | String "0" (String "x" rest) =>
      match hex_N rest with
      | Some n => Some (Z.of_N n)
      | None =>
          match rest with
          | String "-" ds => option_map (fun n => - Z.of_N n) (hex_N ds)
          | _ => None
          end
      end
  | _ => None
  end.

(** What the report guarantees for one extraction detail. *)
Definition detail_sound (data : list byte) (sp : dict (list Z)) (d : Detail)
    : Prop :=
  exists p0 rest,
    dict_get (d_pattern d) sp = Some (p0 :: rest)
    /\ d_string_position d = ("0x" ++ format_04x p0)%string
    /\ d_extraction_position d
       = ("0x" ++ format_04x (p0 + d_offset_used d))%string
    /\ parse_hex_field (d_string_position d) = Some p0
    /\ parse_hex_field (d_extraction_position d)
       = Some (p0 + d_offset_used d)
    /\ (exists p,
          In p (p0 :: rest)
          /\ In (d_offset_used d) search_offsets
          /\ extract_value_at_offset data p (d_offset_used d)
             = Ok (Some (d_value d))
          /\ 0 <= p + d_offset_used d <= len data - 4)
    /\ (first_accepted data (d_type d) (probe_pairs [p0]) <> None ->
        extract_value_at_offset data p0 (d_offset_used d)
        = Ok (Some (d_value d))
        /\ 0 <= p0 + d_offset_used d <= len data - 4).

(** The report of the two-occurrence buffer. *)
Definition two_occurrence_detail : Detail :=
  mk_Detail "duration" "duration_us" 500 "0x000a" (-12) "0x-002"
            "microseconds" "timing".

Definition two_occurrence_report : Results :=
  mk_Results (mk_FileInfo "f" 208 "" "")
             (mk_ExtractionInfo 1 1 [])
             [("duration_us", 500)]
             [two_occurrence_detail].

(** The end-to-end scenario: the label [duration] at offset 100 and the
    little-endian encoding of 500 at offset 116. *)
Definition single_occurrence_buffer : list byte :=
  repeat xff 100 ++ list_byte_of_string "duration" ++ repeat xff 8
  ++ [xf4; x01; x00; x00].

Definition has_version (s : string) : bool := str_contains "v2.35.0" s.

Definition has_graph (s : string) : bool :=
  str_contains "_quantized_htp" s
  || str_contains "_quantized_cpu" s
  || str_contains "_quantized_gpu" s.

(** The buffer holding the single label [v2.35.0_quantized_htp]. *)
Definition version_graph_buffer : list byte :=
  list_byte_of_string "v2.35.0_quantized_htp".

(** An unsigned 32-bit value, as [struct.unpack('<I', ...)] returns. *)
Definition u32 (v : Z) : bool := (0 <=? v) && (v <? 2 ^ 32).

(** A metric map whose values are unsigned 32-bit integers. *)
Definition u32_metrics (metrics : dict Z) : bool :=
  forallb (fun kv => u32 (snd kv)) metrics.

(** A metric map whose keys are keys of the metric definition table. *)
Definition table_keyed (metrics : dict Z) : bool :=
  forallb (fun k => existsb (String.eqb k)
                            (map (fun e => pi_key (snd e)) metric_patterns))
          (dict_keys metrics).

(** A divisor that is a positive integer. *)
Definition positive_divisor (R : float_runtime) (n : number R) : Prop :=
  exists z, n = PyInt z /\ 0 < z.

(** A runtime with exact rational arithmetic in place of binary64, to
    run the calculation on examples. *)
Definition exact_runtime : float_runtime :=
  {| float := Q;
     float_of_int := inject_Z;
     float_div_int := fun a b => (inject_Z a / inject_Z b)%Q;
     float_div := Qdiv;
     float_mul := Qmult;
     float_is_zero := fun q => Qnum q =? 0;
     float_gt0 := fun q => 0 <? Qnum q;
     float_str := fun q =>
       (str_int (Qnum q) ++ "/" ++ str_int (Z.pos (Qden q)))%string |}.

(** The keys a derived-metric map can hold. *)
Definition derived_keys : list string :=
  ["primary_execution_time_us"]
  ++ ["throughput_inferences_per_second"; "avg_time_per_inference_us"]
  ++ ["total_execution_time_us"; "avg_execution_time_us"]
  ++ ["total_finalize_time_us"; "avg_finalize_time_us"]
  ++ ["total_deinit_time_us"; "avg_deinit_time_us"]
  ++ ["accelerator_efficiency_percent"]
  ++ ["rpc_overhead_ratio"].

(** The bucket tests, with the priority of the [if]/[elif] chain. *)
Definition in_execution (key : string) : bool :=
  str_contains "execute" key && str_contains "time_us" key.

Definition in_finalize (key : string) : bool :=
  negb (in_execution key)
  && (str_contains "finalize" key && str_contains "time_us" key).

Definition in_deinit (key : string) : bool :=
  negb (in_execution key) && negb (in_finalize key)
  && (str_contains "deinit" key && str_contains "time_us" key).

(** The values of the keys that pass a test, in the order of the map. *)
Definition bucket_values (test : string -> bool) (metrics : dict Z)
    : list Z :=
  map snd (filter (fun kv => test (fst kv)) metrics).

(** What a bucket contributes to the derived map: the sum of its values,
    and the quotient of the sum by the number of values. *)
Definition total_of (R : float_runtime) (times : list Z)
    : option (number R) :=
  match times with
  | [] => None
  | _ :: _ => Some (PyInt (fold_right Z.add 0 times))
  end.

Definition mean_of (R : float_runtime) (times : list Z)
    : option (number R) :=
  match times with
  | [] => None
  | _ :: _ =>
      Some (PyFloat (float_div_int R (fold_right Z.add 0 times)
                                   (Z.of_nat (List.length times))))
  end.

(** [s.endswith(suffix)], the test the specification words use. *)
Definition str_ends_with (suffix s : string) : bool :=
  (String.length suffix <=? String.length s)%nat
  && String.eqb
       (substring (String.length s - String.length suffix)
                  (String.length suffix) s)
       suffix.

(** *** Runs of printable bytes *)

(** The bytes before a run do not continue it to the left. *)
Definition left_break (before : list byte) : Prop :=
  before = [] \/ exists pre b, before = pre ++ [b] /\ printable b = false.

(** The bytes after a run do not continue it to the right. *)
Definition right_break (after : list byte) : Prop :=
  after = [] \/ exists b post, after = b :: post /\ printable b = false.

(** [run] is a maximal run of printable bytes of [data] starting at
    index [o]. *)
Definition maximal_run (data : list byte) (o : Z) (run : list byte) : Prop :=
  exists before after,
    data = before ++ run ++ after
    /\ len before = o
    /\ Forall (fun b => printable b = true) run
    /\ left_break before
    /\ right_break after.

(** A maximal run that a non-printable byte of [data] ends. *)
Definition closed_run (data : list byte) (o : Z) (run : list byte) : Prop :=
  exists before b post,
    data = before ++ run ++ b :: post
    /\ len before = o
    /\ Forall (fun b => printable b = true) run
    /\ left_break before
    /\ printable b = false.

(** The map records offset [o] for the label [s]. *)
Definition recorded (sp : dict (list Z)) (s : string) (o : Z) : Prop :=
  exists offs, dict_get s sp = Some offs /\ In o offs.

(** Every offset of the entry starts a run of at least three bytes that
    spells the entry's label and satisfies [R]. *)
Definition entry_runs (R : Z -> list byte -> Prop) (e : string * list Z)
    : Prop :=
  Forall (fun o => exists run,
                     (3 <= List.length run)%nat
                     /\ str_of_bytes run = fst e
                     /\ R o run)
         (snd e).

(** The second loop invariant of the scan: the recorded offsets are
    exactly starts of closed runs of the prefix read so far. *)
Definition scan_runs (pre : list byte) (st : scan_state) : Prop :=
  exists before run,
    pre = before ++ run
    /\ Forall (fun b => printable b = true) run
    /\ left_break before
    /\ current_string st = str_of_bytes run
    /\ (run <> [] -> start_pos st = len before)
    /\ Forall (entry_runs (closed_run pre)) (strings_positions st).

(** *** The report, entry by entry *)

(** The extraction detail a table entry contributes, if any. *)
Definition entry_detail (data : list byte) (sp : dict (list Z))
    (e : string * pattern_info) : list Detail :=
  match dict_get (fst e) sp with
  | Some positions =>
      match reading data positions (snd e) with
      | (Some v, offset_used) =>
          [mk_Detail (fst e) (pi_key (snd e)) v
             ("0x" ++ format_04x (hd 0 positions))%string
             offset_used
             ("0x" ++ format_04x (hd 0 positions + offset_used))%string
             (pi_unit (snd e)) (pi_type (snd e))]
      | (None, _) => []
      end
  | None => []
  end.

(** The metric a table entry contributes, if any. *)
Definition entry_metric (data : list byte) (sp : dict (list Z))
    (e : string * pattern_info) : dict Z :=
  match dict_get (fst e) sp with
  | Some positions =>
      match reading data positions (snd e) with
      | (Some v, _) => [(pi_key (snd e), v)]
      | (None, _) => []
      end
  | None => []
  end.

(** The key and value a detail reports. *)
Definition detail_metric (d : Detail) : string * Z := (d_key d, d_value d).

(** The table entry a detail reports. *)
Definition detail_entry (d : Detail) : string * pattern_info :=
  (d_pattern d, mk_pattern_info (d_key d) (d_unit d) (d_type d)).

(** *** Derived metrics, rule by rule *)

(** The primary execution time a metric map determines. *)
Definition primary_time (metrics : dict Z) : option Z :=
  match dict_get "qnn_execute_time_us" metrics with
  | Some v => Some v
  | None => dict_get "accelerator_execute_time_us" metrics
  end.

(** The pair (execution time, inference count) the throughput rule
    divides with, when its guard holds. *)
Definition throughput_inputs (metrics : dict Z) : option (Z * Z) :=
  match primary_time metrics, dict_get "num_inferences" metrics with
  | Some t, Some n => if (0 <? t) && (0 <? n) then Some (t, n) else None
  | _, _ => None
  end.

(** The pair (numerator, divisor) of a guarded ratio of two metrics. *)
Definition ratio_inputs (metrics : dict Z) (num_key den_key : string)
    : option (Z * Z) :=
  match dict_get num_key metrics, dict_get den_key metrics with
  | Some a, Some b => if 0 <? b then Some (a, b) else None
  | _, _ => None
  end.

(** The divisor of a bucket's mean, when the bucket is not empty. *)
Definition bucket_divisor (R : float_runtime) (times : list Z)
    : list (number R) :=
  match times with
  | [] => []
  | _ :: _ => [PyInt (Z.of_nat (List.length times))]
  end.

(** The divisors of the divisions the calculation performs on a metric
    map, in execution order: the primary time and the inference count,
    the sizes of the non-empty buckets, [qnn_execute_time_us] and
    [accelerator_execute_time_us], each under its guard. *)
Definition guarded_divisors (R : float_runtime) (metrics : dict Z)
    : list (number R) :=
  match throughput_inputs metrics with
  | Some (t, n) => [PyInt t; PyInt n]
  | None => []
  end
  ++ bucket_divisor R (bucket_values in_execution metrics)
  ++ bucket_divisor R (bucket_values in_finalize metrics)
  ++ bucket_divisor R (bucket_values in_deinit metrics)
  ++ match ratio_inputs metrics "accelerator_execute_time_us"
                                "qnn_execute_time_us" with
     | Some (_, q) => [PyInt q]
     | None => []
     end
  ++ match ratio_inputs metrics "rpc_execute_time_us"
                                "accelerator_execute_time_us" with
     | Some (_, a) => [PyInt a]
     | None => []
     end.

(** The suffix form of a bucket test. *)
Definition stated_bucket_test (word key : string) : bool :=
  str_contains word key && str_ends_with "time_us" key.

(** *** CSV output *)



(* ================================================================== *)
(** * Properties *)

(** ** The offset probe *)

Lemma byte_val_range (b : byte) : 0 <= byte_val b <= 255.
Proof.
  unfold byte_val. pose proof (Byte.to_N_bounded b). lia.
Qed.

Lemma u32_le_at_range (data : list byte) (pos : Z) :
  0 <= u32_le_at data pos < 2 ^ 32.
Proof.
  unfold u32_le_at, byte_at.
  pose proof (byte_val_range (nth (Z.to_nat pos) data x00)).
  pose proof (byte_val_range (nth (Z.to_nat (pos + 1)) data x00)).
  pose proof (byte_val_range (nth (Z.to_nat (pos + 2)) data x00)).
  pose proof (byte_val_range (nth (Z.to_nat (pos + 3)) data x00)).
  change (2 ^ 8) with 256. change (2 ^ 16) with 65536.
  change (2 ^ 24) with 16777216. change (2 ^ 32) with 4294967296.
  lia.
Qed.

Lemma firstn4_skipn {A : Type} (d : A) (n : nat) (l : list A) :
  (n + 4 <= List.length l)%nat ->
  firstn 4 (skipn n l)
  = [nth n l d; nth (n + 1) l d; nth (n + 2) l d; nth (n + 3) l d].
Proof.
  revert l. induction n as [|n IH]; intros l Hl.
  - destruct l as [|a [|b [|c [|e l]]]]; simpl in Hl; try lia. reflexivity.
  - destruct l as [|a l]; simpl in Hl; [lia|].
    simpl skipn. rewrite IH by lia. reflexivity.
Qed.

Lemma py_slice_window {A : Type} (l : list A) (pos : Z) :
  0 <= pos <= len l - 4 ->
  py_slice l pos (pos + 4) = firstn 4 (skipn (Z.to_nat pos) l).
Proof.
  intros H. unfold py_slice, clamp_index.
  destruct (pos <? 0) eqn:E1; [apply Z.ltb_lt in E1; lia|].
  destruct (pos + 4 <? 0) eqn:E2; [apply Z.ltb_lt in E2; lia|].
  rewrite !Z.min_l by lia.
  replace (pos + 4 - pos) with 4 by lia. reflexivity.
Qed.

Lemma probe_in_window (data : list byte) (position offset : Z) :
  in_window data (position + offset) = true ->
  extract_value_at_offset data position offset
  = Ok (Some (u32_le_at data (position + offset))).
Proof.
  intros H. unfold extract_value_at_offset. unfold in_window in H.
  rewrite H. apply andb_true_iff in H. destruct H as [H1 H2].
  apply Z.leb_le in H1, H2.
  rewrite py_slice_window by lia.
  rewrite (firstn4_skipn x00).
  2:{ unfold len in H2. lia. }
  simpl. unfold u32_le_at, byte_at.
  replace (Z.to_nat (position + offset + 1))
    with (Z.to_nat (position + offset) + 1)%nat by lia.
  replace (Z.to_nat (position + offset + 2))
    with (Z.to_nat (position + offset) + 2)%nat by lia.
  replace (Z.to_nat (position + offset + 3))
    with (Z.to_nat (position + offset) + 3)%nat by lia.
  reflexivity.
Qed.

Lemma probe_out_of_window (data : list byte) (position offset : Z) :
  in_window data (position + offset) = false ->
  extract_value_at_offset data position offset = Ok None.
Proof.
  intros H. unfold extract_value_at_offset. unfold in_window in H.
  rewrite H. reflexivity.
Qed.

Lemma probe_total (data : list byte) (position offset : Z) :
  extract_value_at_offset data position offset
  = Ok (if in_window data (position + offset)
        then Some (u32_le_at data (position + offset)) else None).
Proof.
  destruct (in_window data (position + offset)) eqn:E.
  - now apply probe_in_window.
  - now apply probe_out_of_window.
Qed.

(** C5.  For every buffer, base and signed delta (the base may be any
    integer, in particular any non-negative one) the probe returns
    normally, never raising: it returns [None] exactly when [base+delta < 0]
    or [base+delta > len(data)-4], and otherwise the unsigned 32-bit
    little-endian integer of the four bytes at [base+delta], all four of
    them inside the buffer.  A buffer shorter than four bytes always gives
    [None].  The buffer is an immutable value, so it is not changed. *)
Theorem C5_probe_bounds_and_value :
  forall (data : list byte) (base delta : Z),
    let pos := base + delta in
    (exists r, extract_value_at_offset data base delta = Ok r)
    /\ (extract_value_at_offset data base delta = Ok None
        <-> pos < 0 \/ pos > len data - 4)
    /\ (0 <= pos <= len data - 4 ->
        extract_value_at_offset data base delta
        = Ok (Some (u32_le_at data pos))
        /\ 0 <= u32_le_at data pos < 2 ^ 32
        /\ (Z.to_nat pos + 3 < List.length data)%nat)
    /\ (len data < 4 -> extract_value_at_offset data base delta = Ok None).
Proof.
  intros data base delta pos. subst pos.
  rewrite probe_total. unfold in_window.
  repeat split.
  - eexists; reflexivity.
  - intros H.
    destruct (0 <=? base + delta) eqn:E1;
      destruct (base + delta <=? len data - 4) eqn:E2;
      simpl in H; try discriminate;
      try (apply Z.leb_gt in E1); try (apply Z.leb_gt in E2); lia.
  - intros H.
    destruct (0 <=? base + delta) eqn:E1;
      destruct (base + delta <=? len data - 4) eqn:E2;
      simpl; try reflexivity.
    apply Z.leb_le in E1, E2. lia.
  - destruct H as [H1 H2].
    apply Z.leb_le in H1, H2. now rewrite H1, H2.
  - apply u32_le_at_range.
  - apply u32_le_at_range.
  - unfold len in H. lia.
  - intros H.
    destruct (0 <=? base + delta) eqn:E1;
      destruct (base + delta <=? len data - 4) eqn:E2;
      simpl; try reflexivity.
    apply Z.leb_le in E1, E2. lia.
Qed.

Lemma C5_probe_bounds_and_value_witness :
  extract_value_at_offset [xf4; x01; x00; x00; x07] 0 0 = Ok (Some 500)
  /\ extract_value_at_offset [xf4; x01; x00; x00; x07] 0 (-12) = Ok None
  /\ extract_value_at_offset [xf4; x01; x00] 0 0 = Ok None.
Proof.
  pose proof (C5_probe_bounds_and_value [xf4; x01; x00; x00; x07] 0 0) as H1.
  pose proof (C5_probe_bounds_and_value [xf4; x01; x00; x00; x07] 0 (-12))
    as H2.
  pose proof (C5_probe_bounds_and_value [xf4; x01; x00] 0 0) as H3.
  simpl in H1, H2, H3.
  destruct H1 as (_ & _ & H1 & _).
  destruct H2 as (_ & H2 & _).
  destruct H3 as (_ & _ & _ & H3).
  split; [|split].
  - apply H1. unfold len; simpl; lia.
  - apply H2. left; lia.
  - apply H3. unfold len; simpl; lia.
Defined.

(** ** The delta sequence *)

(** C2, as stated, fails: the sequence agrees with the literal one but has
    42 elements, so it is not a list of 36 deltas. *)
Lemma C2_delta_sequence_not_36 :
  ~ (List.length search_offsets = 36%nat
     /\ search_offsets = literal_delta_sequence).
Proof.
  intros [H _]. vm_compute in H. discriminate H.
Qed.

(** C2, amended.  The delta sequence is a fixed, ordered list of 42 signed
    deltas (8 positive, 18 negative, 16 fallback), equal element for
    element and in probe order to the literal sequence, and it is the same
    for every metric: the search of any metric at an occurrence runs the
    inner loop over exactly this list. *)
Theorem C2_delta_sequence_literal :
  List.length search_offsets = 42%nat
  /\ search_offsets = literal_delta_sequence
  /\ search_offsets
     = [16; 20; 28; 36; 40; 52; 56; 64]
       ++ [-12; -16; -20; -28; -36; -40; -52; -56; -64; -68; -72; -76; -80;
           -84; -88; -92; -96; -100]
       ++ [8; 12; 24; 32; 44; 48; 60; 68; 72; 76; 80; 84; 88; 92; 96; 100]
  /\ forall (data : list byte) (info : pattern_info) (p : Z) (rest : list Z),
       extract_metric_value data (p :: rest) info
       = (r <- try_offsets data (pi_type info) p literal_delta_sequence ;;
          match r with
          | Some (v, offset) => Ok (Some v, offset)
          | None => extract_metric_value data rest info
          end).
Proof.
  repeat split; reflexivity.
Qed.

(** ** Validation *)

Lemma rejected_counter (v : Z) : rejected "counter" v = (1000000 <? v).
Proof. unfold rejected. simpl. apply Z.gtb_ltb. Qed.

Lemma rejected_timing (v : Z) : rejected "timing" v = (10000000 <? v).
Proof. unfold rejected. simpl. apply Z.gtb_ltb. Qed.

Lemma try_offsets_cons (data : list byte) (ty : string) (p d : Z)
    (rest : list Z) :
  try_offsets data ty p (d :: rest)
  = if in_window data (p + d) then
      if rejected ty (u32_le_at data (p + d))
      then try_offsets data ty p rest
      else Ok (Some (u32_le_at data (p + d), d))
    else try_offsets data ty p rest.
Proof.
  simpl. rewrite probe_total.
  destruct (in_window data (p + d)); reflexivity.
Qed.

(** C3.  A counter candidate is accepted iff it is at most 1,000,000 and a
    timing candidate iff it is at most 10,000,000; the boundary values are
    accepted, their successors rejected, zero is accepted; a rejected
    candidate makes the search go on with the next delta, an accepted one
    ends it. *)
Theorem C3_validation_thresholds :
  (forall v, rejected "counter" v = false <-> v <= 1000000)
  /\ (forall v, rejected "timing" v = false <-> v <= 10000000)
  /\ rejected "counter" 1000000 = false
  /\ rejected "counter" 1000001 = true
  /\ rejected "timing" 10000000 = false
  /\ rejected "timing" 10000001 = true
  /\ rejected "counter" 0 = false
  /\ rejected "timing" 0 = false
  /\ forall (data : list byte) (ty : string) (p d v : Z) (rest : list Z),
       extract_value_at_offset data p d = Ok (Some v) ->
       try_offsets data ty p (d :: rest)
       = if rejected ty v then try_offsets data ty p rest
         else Ok (Some (v, d)).
Proof.
  split; [|split]; [| |repeat split; try reflexivity].
  - intros v. rewrite rejected_counter. rewrite Z.ltb_ge. reflexivity.
  - intros v. rewrite rejected_timing. rewrite Z.ltb_ge. reflexivity.
  - intros data ty p d v rest H. simpl. rewrite H. reflexivity.
Qed.

Lemma C3_validation_thresholds_witness :
  try_offsets [x41; x42; x0f; x00; x40; x42; x0f; x00] "counter" 0 [0; 4]
  = Ok (Some (1000000, 4)).
Proof.
  destruct C3_validation_thresholds as (_ & _ & _ & _ & _ & _ & _ & _ & H).
  rewrite (H _ _ _ _ 1000001) by reflexivity.
  rewrite (H _ _ _ _ 1000000) by reflexivity.
  reflexivity.
Defined.

(** ** The nested search *)

Lemma first_accepted_app (data : list byte) (ty : string)
    (l1 l2 : list (Z * Z)) :
  first_accepted data ty (l1 ++ l2)
  = match first_accepted data ty l1 with
    | Some r => Some r
    | None => first_accepted data ty l2
    end.
Proof.
  induction l1 as [|pd l1 IH]; simpl; [reflexivity|].
  destruct (accepted_value data ty pd); [reflexivity|apply IH].
Qed.

Lemma first_accepted_split (data : list byte) (ty : string)
    (pairs : list (Z * Z)) (pd : Z * Z) (v : Z) :
  first_accepted data ty pairs = Some (pd, v) ->
  exists pre post,
    pairs = pre ++ pd :: post
    /\ Forall (fun q => accepted_value data ty q = None) pre
    /\ accepted_value data ty pd = Some v.
Proof.
  induction pairs as [|q pairs IH]; simpl; [discriminate|].
  destruct (accepted_value data ty q) as [w|] eqn:E.
  - intros H. injection H as <- <-.
    exists [], pairs. repeat split; [constructor|exact E].
  - intros H. destruct (IH H) as (pre & post & -> & Hpre & Hpd).
    exists (q :: pre), post. repeat split; [constructor; assumption|exact Hpd].
Qed.

Lemma first_accepted_none (data : list byte) (ty : string)
    (pairs : list (Z * Z)) :
  first_accepted data ty pairs = None <->
  Forall (fun q => accepted_value data ty q = None) pairs.
Proof.
  induction pairs as [|q pairs IH]; simpl.
  - split; [constructor|reflexivity].
  - destruct (accepted_value data ty q) eqn:E.
    + split; [discriminate|]. intros H. inversion H; congruence.
    + rewrite IH. split; [now constructor|]. intros H. now inversion H.
Qed.

Lemma try_offsets_first_accepted (data : list byte) (ty : string) (p : Z)
    (offsets : list Z) :
  try_offsets data ty p offsets
  = Ok (match first_accepted data ty (map (fun d => (p, d)) offsets) with
        | Some ((_, d), v) => Some (v, d)
        | None => None
        end).
Proof.
  induction offsets as [|d offsets IH]; [reflexivity|].
  rewrite try_offsets_cons. simpl map. simpl first_accepted.
  unfold accepted_value. simpl fst. simpl snd.
  destruct (in_window data (p + d)); [|exact IH].
  destruct (rejected ty (u32_le_at data (p + d))); [exact IH|reflexivity].
Qed.

Lemma probe_pairs_cons (p : Z) (positions : list Z) :
  probe_pairs (p :: positions)
  = map (fun d => (p, d)) search_offsets ++ probe_pairs positions.
Proof. reflexivity. Qed.

Lemma try_positions_cons (data : list byte) (ty : string) (p : Z)
    (rest : list Z) :
  try_positions data ty (p :: rest)
  = (r <- try_offsets data ty p search_offsets ;;
     match r with
     | Some (v, offset) => Ok (Some v, offset)
     | None => try_positions data ty rest
     end).
Proof. reflexivity. Qed.

Lemma try_positions_first_accepted (data : list byte) (ty : string)
    (positions : list Z) :
  try_positions data ty positions
  = Ok (search_outcome (first_accepted data ty (probe_pairs positions))).
Proof.
  induction positions as [|p positions IH]; [reflexivity|].
  rewrite try_positions_cons, try_offsets_first_accepted.
  rewrite probe_pairs_cons, first_accepted_app.
  destruct (first_accepted data ty (map (fun d => (p, d)) search_offsets))
    as [[[p' d] v]|]; [reflexivity|exact IH].
Qed.

(** C1.  The search returns normally and its outcome is that of the first
    (occurrence, delta) pair, in the nested order occurrences-then-deltas,
    whose probed value passes the validation of the metric's kind; every
    pair before it was probed and gave nothing, and no later pair matters.
    In particular, with two occurrences of which the first yields nothing
    over the whole delta sequence, the accepted value is the one read at
    the second occurrence. *)
Theorem C1_first_accepted_in_nested_order :
  forall (data : list byte) (positions : list Z) (info : pattern_info),
    let ty := pi_type info in
    extract_metric_value data positions info
    = Ok (search_outcome (first_accepted data ty (probe_pairs positions)))
    /\ (forall p d v,
          first_accepted data ty (probe_pairs positions) = Some ((p, d), v) ->
          exists pre post,
            probe_pairs positions = pre ++ (p, d) :: post
            /\ Forall (fun q => accepted_value data ty q = None) pre
            /\ In p positions /\ In d search_offsets
            /\ extract_value_at_offset data p d = Ok (Some v)
            /\ rejected ty v = false
            /\ extract_metric_value data positions info = Ok (Some v, d))
    /\ (forall p1 p2 d v,
          positions = [p1; p2] ->
          (forall d', In d' search_offsets ->
                      accepted_value data ty (p1, d') = None) ->
          first_accepted data ty (map (fun d => (p2, d)) search_offsets)
          = Some ((p2, d), v) ->
          extract_metric_value data positions info = Ok (Some v, d)
          /\ extract_value_at_offset data p2 d = Ok (Some v)).
Proof.
  intros data positions info ty.
  assert (Hmain : extract_metric_value data positions info
                  = Ok (search_outcome
                          (first_accepted data ty (probe_pairs positions)))).
  { unfold extract_metric_value. apply try_positions_first_accepted. }
  assert (Hacc : forall p d v, accepted_value data ty (p, d) = Some v ->
                 extract_value_at_offset data p d = Ok (Some v)
                 /\ rejected ty v = false).
  { intros p d v H. unfold accepted_value in H. simpl in H.
    rewrite probe_total.
    destruct (in_window data (p + d)); [|discriminate].
    destruct (rejected ty (u32_le_at data (p + d))) eqn:E; [discriminate|].
    injection H as <-. split; [reflexivity|exact E]. }
  split; [exact Hmain|split].
  - intros p d v H.
    destruct (first_accepted_split _ _ _ H) as (pre & post & Heq & Hpre & Hpd).
    exists pre, post.
    assert (Hin : In (p, d) (probe_pairs positions)).
    { rewrite Heq. apply in_or_app. right. left. reflexivity. }
    unfold probe_pairs in Hin. apply in_flat_map in Hin.
    destruct Hin as (p' & Hp' & Hin). apply in_map_iff in Hin.
    destruct Hin as (d' & Hd' & Hin). injection Hd' as -> ->.
    destruct (Hacc _ _ _ Hpd) as [Hv Hr].
    repeat split; try assumption.
    rewrite Hmain, H. reflexivity.
  - intros p1 p2 d v -> Hnone Hsome.
    assert (H1 : first_accepted data ty
                   (map (fun d => (p1, d)) search_offsets) = None).
    { apply first_accepted_none. apply Forall_forall. intros q Hq.
      apply in_map_iff in Hq. destruct Hq as (d' & <- & Hd').
      now apply Hnone. }
    split.
    + rewrite Hmain, !probe_pairs_cons, !first_accepted_app, H1, Hsome.
      reflexivity.
    + destruct (first_accepted_split _ _ _ Hsome) as (_ & _ & _ & _ & Hpd).
      now apply Hacc.
Qed.

Lemma C1_first_accepted_in_nested_order_witness :
  extract_metric_value two_occurrence_buffer [10; 200] (timing_us "duration_us")
  = Ok (Some 500, -12)
  /\ extract_value_at_offset two_occurrence_buffer 200 (-12) = Ok (Some 500).
Proof.
  destruct (C1_first_accepted_in_nested_order two_occurrence_buffer [10; 200]
              (timing_us "duration_us")) as (_ & _ & H).
  apply (H 10 200 (-12) 500).
  - reflexivity.
  - intros d' Hd'. simpl in Hd'.
    repeat (destruct Hd' as [<-|Hd']; [vm_compute; reflexivity|]).
    destruct Hd'.
  - vm_compute. reflexivity.
Defined.

(** ** Dictionaries *)

Section DictFacts.
Variable V : Type.
Implicit Types (d : dict V) (k : string) (v : V).

Lemma dict_get_In k v d : dict_get k d = Some v -> In (k, v) d.
Proof.
  induction d as [|[k' v'] d IH]; simpl; [discriminate|].
  destruct (String.eqb_spec k k') as [->|Hne].
  - intros H. injection H as ->. now left.
  - intros H. right. now apply IH.
Qed.

Lemma dict_get_None k d : dict_get k d = None <-> ~ In k (dict_keys d).
Proof.
  induction d as [|[k' v'] d IH]; simpl.
  - split; [intros _ []|reflexivity].
  - destruct (String.eqb_spec k k') as [->|Hne].
    + split; [discriminate|]. intros H. exfalso. apply H. now left.
    + rewrite IH. split.
      * intros H [E|E]; [congruence|contradiction].
      * intros H E. apply H. now right.
Qed.

Lemma dict_mem_In k d : dict_mem k d = true <-> In k (dict_keys d).
Proof.
  unfold dict_mem. destruct (dict_get k d) eqn:E.
  - split; [intros _|reflexivity].
    apply dict_get_In in E. apply (in_map fst) in E. exact E.
  - split; [discriminate|]. intros H. now apply dict_get_None in E.
Qed.

Lemma In_dict_get k v d :
  NoDup (dict_keys d) -> In (k, v) d -> dict_get k d = Some v.
Proof.
  induction d as [|[k' v'] d IH]; simpl; [intros _ []|].
  intros Hnd [E|Hin].
  - injection E as -> ->. now rewrite String.eqb_refl.
  - inversion Hnd as [|? ? Hk' Hnd']; subst.
    destruct (String.eqb_spec k k') as [->|Hne].
    + exfalso. apply Hk'. apply (in_map fst) in Hin. exact Hin.
    + now apply IH.
Qed.

Lemma dict_set_absent k v d :
  dict_get k d = None -> dict_set k v d = d ++ [(k, v)].
Proof.
  induction d as [|[k' v'] d IH]; simpl; [reflexivity|].
  destruct (String.eqb k k'); [discriminate|].
  intros H. now rewrite IH.
Qed.

Lemma dict_set_keys k v d :
  dict_keys (dict_set k v d)
  = if dict_mem k d then dict_keys d else dict_keys d ++ [k].
Proof.
  unfold dict_mem.
  induction d as [|[k' v'] d IH]; simpl; [reflexivity|].
  destruct (String.eqb k k'); [reflexivity|].
  simpl. rewrite IH. now destruct (dict_get k d).
Qed.

Lemma dict_get_set_same k v d : dict_get k (dict_set k v d) = Some v.
Proof.
  induction d as [|[k' v'] d IH]; simpl.
  - now rewrite String.eqb_refl.
  - destruct (String.eqb k k') eqn:E; simpl; rewrite E; [reflexivity|].
    exact IH.
Qed.

Lemma dict_get_set_other k k' v d :
  k <> k' -> dict_get k (dict_set k' v d) = dict_get k d.
Proof.
  intros Hne.
  induction d as [|[k2 v2] d IH]; simpl.
  - apply String.eqb_neq in Hne. now rewrite Hne.
  - destruct (String.eqb_spec k' k2) as [->|Hne2]; simpl.
    + apply String.eqb_neq in Hne. now rewrite Hne.
    + now rewrite IH.
Qed.
End DictFacts.

Lemma dict_append_keys {A : Type} (k : string) (x : A) (d : dict (list A)) :
  dict_keys (dict_append k x d) = dict_keys d.
Proof.
  induction d as [|[k' l] d IH]; simpl; [reflexivity|].
  destruct (String.eqb k k'); simpl; [reflexivity|]. now rewrite IH.
Qed.

Lemma dict_append_Forall {A : Type} (P : string * list A -> Prop)
    (k : string) (x : A) (d : dict (list A)) :
  Forall P d ->
  (forall l, In (k, l) d -> P (k, l ++ [x])) ->
  Forall P (dict_append k x d).
Proof.
  induction d as [|[k' l] d IH]; simpl; intros Hd Hk; [constructor|].
  inversion Hd as [|? ? Hhd Htl]; subst.
  destruct (String.eqb_spec k k') as [->|Hne].
  - constructor; [|assumption]. apply Hk. now left.
  - constructor; [assumption|]. apply IH; [assumption|].
    intros l' Hl'. apply Hk. now right.
Qed.

Lemma dict_get_append_same {A : Type} (k : string) (x : A)
    (d : dict (list A)) :
  dict_get k (dict_append k x d)
  = option_map (fun l => l ++ [x]) (dict_get k d).
Proof.
  induction d as [|[k' l] d IH]; simpl; [reflexivity|].
  destruct (String.eqb k k') eqn:E; simpl; rewrite E; [reflexivity|exact IH].
Qed.

(** ** The label scan *)

Lemma dict_append_fresh {A : Type} (k : string) (x : A)
    (d : dict (list A)) :
  dict_get k d = None ->
  dict_append k x (d ++ [(k, [])]) = d ++ [(k, [x])].
Proof.
  induction d as [|[k' l] d IH]; simpl.
  - now rewrite String.eqb_refl.
  - destruct (String.eqb k k'); [discriminate|].
    intros H. now rewrite IH.
Qed.

Lemma record_occurrence_eq (sp : dict (list Z)) (s : string) (pos : Z) :
  record_occurrence sp s pos
  = if dict_mem s sp then dict_append s pos sp else sp ++ [(s, [pos])].
Proof.
  unfold record_occurrence, dict_mem.
  destruct (dict_get s sp) eqn:E; simpl; [reflexivity|].
  rewrite dict_set_absent by exact E. now apply dict_append_fresh.
Qed.

Lemma record_occurrence_keys (sp : dict (list Z)) (s : string) (pos : Z) :
  NoDup (dict_keys sp) -> NoDup (dict_keys (record_occurrence sp s pos)).
Proof.
  intros Hnd. rewrite record_occurrence_eq.
  destruct (dict_mem s sp) eqn:E.
  - now rewrite dict_append_keys.
  - unfold dict_keys. rewrite map_app. simpl.
    apply NoDup_app; [assumption|repeat constructor; intros []| ].
    intros k Hk [<-|[]].
    apply dict_mem_In in Hk. congruence.
Qed.

Lemma record_occurrence_Forall (P : string * list Z -> Prop)
    (sp : dict (list Z)) (s : string) (pos : Z) :
  Forall P sp ->
  (forall l, In (s, l) sp -> P (s, l ++ [pos])) ->
  P (s, [pos]) ->
  Forall P (record_occurrence sp s pos).
Proof.
  intros Hsp Hold Hnew. rewrite record_occurrence_eq.
  destruct (dict_mem s sp).
  - now apply dict_append_Forall.
  - apply Forall_app. split; [assumption|]. now constructor.
Qed.

Lemma record_occurrence_get (sp : dict (list Z)) (s : string) (pos : Z) :
  dict_get s (record_occurrence sp s pos)
  = Some (match dict_get s sp with Some l => l | None => [] end ++ [pos]).
Proof.
  unfold record_occurrence, dict_mem.
  destruct (dict_get s sp) eqn:E; simpl.
  - now rewrite dict_get_append_same, E.
  - now rewrite dict_get_append_same, dict_get_set_same.
Qed.

Lemma string_of_list_ascii_app (l1 l2 : list ascii) :
  string_of_list_ascii (l1 ++ l2)
  = (string_of_list_ascii l1 ++ string_of_list_ascii l2)%string.
Proof.
  induction l1 as [|c l1 IH]; simpl; [reflexivity|]. now rewrite IH.
Qed.

Lemma str_of_bytes_app (r1 r2 : list byte) :
  str_of_bytes (r1 ++ r2) = (str_of_bytes r1 ++ str_of_bytes r2)%string.
Proof.
  unfold str_of_bytes. now rewrite map_app, string_of_list_ascii_app.
Qed.

Lemma str_of_bytes_length (run : list byte) :
  String.length (str_of_bytes run) = List.length run.
Proof.
  unfold str_of_bytes. induction run as [|b run IH]; simpl; congruence.
Qed.

Lemma str_of_bytes_empty (run : list byte) :
  String.eqb (str_of_bytes run) "" = true <-> run = [].
Proof.
  destruct run; simpl; split; intros H; try reflexivity; discriminate.
Qed.

Lemma printable_chr (b : byte) :
  printable b = true -> printable_ascii (chr b).
Proof.
  unfold printable, printable_ascii, chr, byte_val. intros H.
  apply andb_true_iff in H. destruct H as [H1 H2].
  apply Z.leb_le in H1, H2.
  rewrite ascii_of_byte_via_N, N_ascii_embedding; [lia|].
  pose proof (Byte.to_N_bounded b). lia.
Qed.

Lemma printable_str_of_bytes (run : list byte) :
  Forall (fun b => printable b = true) run ->
  printable_string (str_of_bytes run).
Proof.
  unfold printable_string, str_of_bytes.
  rewrite list_ascii_of_string_of_list_ascii.
  intros H. apply Forall_map. revert H. apply Forall_impl.
  exact printable_chr.
Qed.

Lemma len_app {A : Type} (l1 l2 : list A) : len (l1 ++ l2) = len l1 + len l2.
Proof. unfold len. rewrite length_app. lia. Qed.

Lemma len_nonneg {A : Type} (l : list A) : 0 <= len l.
Proof. unfold len. lia. Qed.

Lemma occurs_at_app (data ext : list byte) (o : Z) (s : string) :
  occurs_at data o s -> occurs_at (data ++ ext) o s.
Proof.
  intros (before & bytes & after & -> & Ho & Hs).
  exists before, bytes, (after ++ ext).
  now rewrite <- !app_assoc.
Qed.

Lemma occurs_at_bounds (data : list byte) (o : Z) (s : string) :
  occurs_at data o s ->
  0 <= o /\ o + Z.of_nat (String.length s) <= len data.
Proof.
  intros (before & bytes & after & -> & <- & <-).
  rewrite str_of_bytes_length, !len_app.
  pose proof (len_nonneg before). pose proof (len_nonneg after).
  unfold len. lia.
Qed.

Lemma entry_ok_weaken (data ext : list byte) (b1 b2 : Z)
    (e : string * list Z) :
  b1 <= b2 -> entry_ok data b1 e -> entry_ok (data ++ ext) b2 e.
Proof.
  intros Hb (H3 & Hp & Hne & Hs & Hall).
  repeat split; try assumption.
  revert Hall. apply Forall_impl. intros o [Ho Hle].
  split; [now apply occurs_at_app|lia].
Qed.

Lemma StronglySorted_snoc (l : list Z) (x : Z) :
  StronglySorted Z.lt l -> Forall (fun o => o < x) l ->
  StronglySorted Z.lt (l ++ [x]).
Proof.
  induction l as [|a l IH]; simpl; intros Hs Hall.
  - repeat constructor.
  - apply StronglySorted_inv in Hs. destruct Hs as [Hs Ha].
    inversion Hall as [|? ? Hax Hall']; subst.
    constructor; [now apply IH|].
    apply Forall_app. split; [assumption|now constructor].
Qed.

(** Flushing a run [run] that starts right after [before]: every entry
    of the resulting map is sound for the buffer read so far. *)
Lemma flush_entries (before run ext : list byte) (sp : dict (list Z)) :
  Forall (fun b => printable b = true) run ->
  Forall (entry_ok (before ++ run) (len before)) sp ->
  Forall (entry_ok ((before ++ run) ++ ext) (len ((before ++ run) ++ ext)))
         (flush sp (str_of_bytes run) (len before)).
Proof.
  intros Hrun Hsp.
  assert (Hle : len before <= len ((before ++ run) ++ ext)).
  { rewrite !len_app. pose proof (len_nonneg run).
    pose proof (len_nonneg ext). lia. }
  assert (Hold : Forall (entry_ok ((before ++ run) ++ ext)
                                  (len ((before ++ run) ++ ext))) sp).
  { revert Hsp. apply Forall_impl. intros e. now apply entry_ok_weaken. }
  unfold flush. rewrite str_of_bytes_length.
  destruct (3 <=? List.length run)%nat eqn:E3; [|exact Hold].
  apply Nat.leb_le in E3.
  assert (Hocc : occurs_at ((before ++ run) ++ ext) (len before)
                           (str_of_bytes run)
                 /\ len before + Z.of_nat (String.length (str_of_bytes run))
                    <= len ((before ++ run) ++ ext)).
  { split.
    - exists before, run, ext. now rewrite <- app_assoc.
    - rewrite str_of_bytes_length, !len_app. pose proof (len_nonneg ext).
      unfold len. lia. }
  apply record_occurrence_Forall; [exact Hold| |].
  - intros l Hl.
    rewrite Forall_forall in Hsp. specialize (Hsp _ Hl).
    destruct Hsp as (H3 & Hp & Hne & Hs & Hall). simpl in *.
    repeat split; simpl; try assumption.
    + intros E. now apply app_eq_nil in E as [_ E].
    + apply StronglySorted_snoc; [assumption|].
      revert Hall. apply Forall_impl. intros o [_ Ho].
      rewrite str_of_bytes_length in Ho. lia.
    + apply Forall_app. split; [|now constructor].
      revert Hall. apply Forall_impl. intros o [Ho Hb].
      split; [now apply occurs_at_app|lia].
  - repeat split; simpl.
    + rewrite str_of_bytes_length. exact E3.
    + now apply printable_str_of_bytes.
    + discriminate.
    + repeat constructor.
    + now constructor.
Qed.

Lemma flush_entries_final (before run : list byte) (sp : dict (list Z)) :
  Forall (fun b => printable b = true) run ->
  Forall (entry_ok (before ++ run) (len before)) sp ->
  Forall (entry_ok (before ++ run) (len (before ++ run)))
         (flush sp (str_of_bytes run) (len before)).
Proof.
  intros Hrun Hsp.
  pose proof (@flush_entries before run [] sp Hrun Hsp) as H.
  now rewrite app_nil_r in H.
Qed.

Lemma entry_ok_bound (data : list byte) (b1 b2 : Z) (e : string * list Z) :
  b1 <= b2 -> entry_ok data b1 e -> entry_ok data b2 e.
Proof.
  intros Hb He. pose proof (@entry_ok_weaken data [] b1 b2 e Hb He) as H.
  now rewrite app_nil_r in H.
Qed.

Lemma flush_keys (sp : dict (list Z)) (cur : string) (start : Z) :
  NoDup (dict_keys sp) -> NoDup (dict_keys (flush sp cur start)).
Proof.
  intros H. unfold flush.
  destruct (3 <=? String.length cur)%nat; [|assumption].
  now apply record_occurrence_keys.
Qed.

Lemma enumerate_from_app {A : Type} (i : Z) (l1 l2 : list A) :
  enumerate_from i (l1 ++ l2)
  = enumerate_from i l1 ++ enumerate_from (i + len l1) l2.
Proof.
  revert i. induction l1 as [|x l1 IH]; intros i; simpl.
  - unfold len. simpl. now rewrite Z.add_0_r.
  - rewrite IH. do 3 f_equal. unfold len. cbn [List.length]. lia.
Qed.

Lemma scan_loop_snoc (pre : list byte) (b : byte) :
  scan_loop (pre ++ [b]) = scan_step (scan_loop pre) (len pre, b).
Proof.
  unfold scan_loop, enumerate.
  now rewrite enumerate_from_app, fold_left_app.
Qed.

Lemma scan_step_inv (pre : list byte) (st : scan_state) (b : byte) :
  scan_inv pre st -> scan_inv (pre ++ [b]) (scan_step st (len pre, b)).
Proof.
  intros (Hnd & before & run & -> & Hrun & Hcur & Hstart & Hsp).
  unfold scan_step. destruct (printable b) eqn:Eb.
  - split; [exact Hnd|]. exists before, (run ++ [b]). simpl.
    repeat split.
    + now rewrite app_assoc.
    + apply Forall_app. split; [assumption|now constructor].
    + now rewrite Hcur, str_of_bytes_app.
    + intros _. rewrite Hcur.
      destruct (String.eqb (str_of_bytes run) "") eqn:E.
      * apply str_of_bytes_empty in E. subst run.
        now rewrite app_nil_r.
      * apply Hstart. intros ->. discriminate.
    + revert Hsp. apply Forall_impl. intros e.
      apply entry_ok_weaken. lia.
  - split.
    + simpl. now apply flush_keys.
    + exists ((before ++ run) ++ [b]), []. simpl.
      repeat split.
      * now rewrite app_nil_r.
      * constructor.
      * intros H. now contradiction H.
      * rewrite Hcur.
        destruct run as [|r0 run'].
        -- unfold flush. simpl.
           revert Hsp. apply Forall_impl. intros e.
           apply entry_ok_weaken. rewrite !len_app.
           unfold len. cbn [List.length]. lia.
        -- rewrite Hstart by discriminate.
           now apply flush_entries.
Qed.

Lemma scan_loop_inv (data : list byte) : scan_inv data (scan_loop data).
Proof.
  induction data as [|b pre IH] using rev_ind.
  - split; [constructor|]. exists [], []. simpl.
    repeat split; constructor.
  - rewrite scan_loop_snoc. now apply scan_step_inv.
Qed.

(** Scanning a printable run extends the accumulator and leaves the map
    alone. *)
Lemma scan_printable_run (run : list byte) (i : Z) (st : scan_state) :
  Forall (fun b => printable b = true) run ->
  fold_left scan_step (enumerate_from i run) st
  = mk_scan_state
      (strings_positions st)
      (current_string st ++ str_of_bytes run)%string
      (if String.eqb (current_string st) "" then
         match run with [] => start_pos st | _ :: _ => i end
       else start_pos st).
Proof.
  revert i st. induction run as [|b run IH]; intros i st Hrun.
  - simpl. destruct st as [sp cur start]. simpl.
    assert (E : (cur ++ "")%string = cur).
    { clear. induction cur as [|c cur IH]; simpl; congruence. }
    change (str_of_bytes []) with "". rewrite E.
    now destruct (String.eqb cur "").
  - inversion Hrun as [|? ? Hb Hrun']; subst.
    simpl fold_left. rewrite IH by assumption.
    unfold scan_step. rewrite Hb. simpl.
    f_equal.
    + change (str_of_bytes (b :: run))
        with (String (chr b) "" ++ str_of_bytes run)%string.
      generalize (current_string st) as cur.
      intros cur. induction cur as [|c cur IHc]; simpl; [reflexivity|].
      simpl in IHc. now rewrite IHc.
    + destruct (current_string st) as [|c cur]; simpl; [|reflexivity].
      now destruct run.
Qed.

Lemma scan_loop_after_break (before : list byte) :
  before = [] \/ (exists pre b, before = pre ++ [b] /\ printable b = false) ->
  current_string (scan_loop before) = "".
Proof.
  intros [->|(pre & b & -> & Hb)]; [reflexivity|].
  rewrite scan_loop_snoc. unfold scan_step. now rewrite Hb.
Qed.

Lemma scan_final_run (before run : list byte) :
  before = [] \/ (exists pre b, before = pre ++ [b] /\ printable b = false) ->
  Forall (fun b => printable b = true) run ->
  run <> [] ->
  extract_strings_and_positions (before ++ run)
  = flush (strings_positions (scan_loop before)) (str_of_bytes run)
          (len before).
Proof.
  intros Hbreak Hrun Hne.
  unfold extract_strings_and_positions.
  assert (E : scan_loop (before ++ run)
              = mk_scan_state (strings_positions (scan_loop before))
                              (str_of_bytes run) (len before)).
  { unfold scan_loop, enumerate.
    rewrite enumerate_from_app, fold_left_app.
    fold (enumerate before). fold (scan_loop before).
    rewrite scan_printable_run by assumption.
    rewrite (scan_loop_after_break Hbreak). simpl.
    destruct run; [now contradiction Hne|reflexivity]. }
  now rewrite E.
Qed.

(** C4.  The label scan returns a map (no key twice) in which every key
    is a printable-ASCII string of at least three characters and every
    offset recorded for a label is a start index at which the label's
    characters occur verbatim in the buffer; each offset list is
    non-empty and strictly ascending.  A printable run of length at least
    three that ends exactly at the end of the buffer (and is not the
    continuation of a longer run) is flushed: its text is a key and its
    start is the last offset recorded for it. *)
Theorem C4_label_scan_sound :
  forall (data : list byte),
    let sp := extract_strings_and_positions data in
    NoDup (dict_keys sp)
    /\ (forall label offs,
          In (label, offs) sp ->
          printable_string label
          /\ (3 <= String.length label)%nat
          /\ offs <> []
          /\ StronglySorted Z.lt offs
          /\ forall o, In o offs ->
               occurs_at data o label
               /\ 0 <= o
               /\ o + Z.of_nat (String.length label) <= len data)
    /\ (forall before run,
          data = before ++ run ->
          (before = []
           \/ exists pre b, before = pre ++ [b] /\ printable b = false) ->
          Forall (fun b => printable b = true) run ->
          (3 <= List.length run)%nat ->
          exists offs,
            dict_get (str_of_bytes run) sp = Some (offs ++ [len before])).
Proof.
  intros data sp. subst sp.
  destruct (scan_loop_inv data)
    as (Hnd & before & run & Hdata & Hrun & Hcur & Hstart & Hsp).
  split; [|split].
  - unfold extract_strings_and_positions. now apply flush_keys.
  - assert (Hall : Forall (entry_ok data (len data))
                          (extract_strings_and_positions data)).
    { unfold extract_strings_and_positions. rewrite Hcur.
      destruct run as [|r0 run'].
      - unfold flush. simpl. revert Hsp. apply Forall_impl. intros e.
        apply entry_ok_bound.
        rewrite Hdata, len_app. unfold len. lia.
      - rewrite Hstart by discriminate. subst data.
        now apply flush_entries_final. }
    intros label offs Hin. rewrite Forall_forall in Hall.
    destruct (Hall _ Hin) as (H3 & Hp & Hne & Hs & Hoffs). simpl in *.
    repeat split; try assumption;
      rewrite Forall_forall in Hoffs; destruct (Hoffs _ H) as [Ho _];
      try assumption; now apply occurs_at_bounds in Ho.
  - clear before run Hdata Hrun Hcur Hstart Hsp.
    intros before run -> Hbreak Hrun H3.
    rewrite scan_final_run; try assumption.
    2:{ intros ->. simpl in H3. lia. }
    unfold flush. rewrite str_of_bytes_length.
    apply Nat.leb_le in H3. rewrite H3.
    rewrite record_occurrence_get. eexists. reflexivity.
Qed.

Lemma C4_label_scan_sound_witness :
  occurs_at two_occurrence_buffer 10 "duration"
  /\ exists offs,
       dict_get "duration" (extract_strings_and_positions two_occurrence_buffer)
       = Some (offs ++ [200]).
Proof.
  destruct (C4_label_scan_sound two_occurrence_buffer) as (_ & Hin & Hend).
  split.
  - apply (Hin "duration" [10; 200]); [vm_compute|simpl]; now left.
  - apply (Hend (firstn 200 two_occurrence_buffer)
                (list_byte_of_string "duration")).
    + reflexivity.
    + right. exists (firstn 199 two_occurrence_buffer), xff.
      split; reflexivity.
    + repeat constructor.
    + simpl. lia.
Defined.

(** ** The report builder *)

Lemma extract_metric_value_reading (data : list byte) (positions : list Z)
    (info : pattern_info) :
  extract_metric_value data positions info
  = Ok (reading data positions info).
Proof. apply try_positions_first_accepted. Qed.

Lemma reading_nil (data : list byte) (info : pattern_info) :
  reading data [] info = (None, -1).
Proof. reflexivity. Qed.

Lemma parse_step_ok (data : list byte) (sp : dict (list Z))
    (st : parse_state) (entry : string * pattern_info) :
  parse_step data sp st entry = Ok (parse_step_outcome data sp st entry).
Proof.
  destruct entry as [name info].
  unfold parse_step, parse_step_outcome, dict_mem, dict_item. simpl.
  destruct (dict_get name sp) as [positions|]; [|reflexivity].
  simpl. rewrite extract_metric_value_reading. simpl.
  destruct positions as [|p0 rest].
  - rewrite reading_nil. reflexivity.
  - destruct (reading data (p0 :: rest) info) as [[v|] off]; reflexivity.
Qed.

Lemma parse_loop_ok (data : list byte) (sp : dict (list Z))
    (entries : dict pattern_info) (st : parse_state) :
  parse_loop data sp entries st
  = Ok (fold_left (parse_step_outcome data sp) entries st).
Proof.
  revert st. induction entries as [|e entries IH]; intros st; simpl.
  - reflexivity.
  - rewrite parse_step_ok. simpl. apply IH.
Qed.

Lemma parse_file_ok (file_path : string) (data : list byte) :
  parse_file file_path data
  = Ok (mk_Results
          (mk_FileInfo file_path (len data)
             (fst (extract_metadata (extract_strings_and_positions data)))
             (snd (extract_metadata (extract_strings_and_positions data))))
          (mk_ExtractionInfo (len (extract_strings_and_positions data))
             (ps_extracted_count (final_state data))
             (ps_failed (final_state data)))
          (ps_metrics (final_state data))
          (ps_details (final_state data))).
Proof.
  unfold parse_file.
  destruct (extract_metadata (extract_strings_and_positions data))
    as [bv gn].
  rewrite parse_loop_ok. unfold final_state. reflexivity.
Qed.

(** *** Report order *)

Section ReportOrder.
Variables (data : list byte) (sp : dict (list Z)).

Let step := parse_step_outcome data sp.

Lemma fold_details (entries : dict pattern_info) (st : parse_state) :
  map d_pattern (ps_details (fold_left step entries st))
  = map d_pattern (ps_details st)
    ++ map fst (filter (succeeded data sp) entries).
Proof.
  revert st. induction entries as [|e entries IH]; intros st; simpl.
  - now rewrite app_nil_r.
  - rewrite IH. unfold step, parse_step_outcome, succeeded.
    destruct (dict_get (fst e) sp) as [positions|]; [|reflexivity].
    destruct (reading data positions (snd e)) as [[v|] off]; simpl.
    + now rewrite map_app, <- app_assoc.
    + reflexivity.
Qed.

Lemma fold_failed (entries : dict pattern_info) (st : parse_state) :
  ps_failed (fold_left step entries st)
  = ps_failed st ++ map fst (filter (found_without_value data sp) entries).
Proof.
  revert st. induction entries as [|e entries IH]; intros st; simpl.
  - now rewrite app_nil_r.
  - rewrite IH. unfold step, parse_step_outcome, found_without_value.
    destruct (dict_get (fst e) sp) as [positions|]; [|reflexivity].
    destruct (reading data positions (snd e)) as [[v|] off]; simpl.
    + reflexivity.
    + now rewrite <- app_assoc.
Qed.

Lemma fold_metrics_keys (entries : dict pattern_info) (st : parse_state) :
  NoDup (dict_keys (ps_metrics st)
         ++ map (fun e => pi_key (snd e)) entries) ->
  dict_keys (ps_metrics (fold_left step entries st))
  = dict_keys (ps_metrics st)
    ++ map (fun e => pi_key (snd e)) (filter (succeeded data sp) entries).
Proof.
  revert st. induction entries as [|e entries IH]; intros st Hnd; simpl.
  - now rewrite app_nil_r.
  - simpl in Hnd.
    assert (Hfresh : dict_mem (pi_key (snd e)) (ps_metrics st) = false).
    { destruct (dict_mem (pi_key (snd e)) (ps_metrics st)) eqn:E;
        [|reflexivity].
      apply dict_mem_In in E. apply NoDup_remove_2 in Hnd.
      exfalso. apply Hnd. apply in_or_app. now left. }
    assert (Hnd1 : NoDup (dict_keys (ps_metrics st)
                          ++ map (fun e => pi_key (snd e)) entries)).
    { now apply NoDup_remove_1 in Hnd. }
    assert (Hnd2 : NoDup ((dict_keys (ps_metrics st) ++ [pi_key (snd e)])
                          ++ map (fun e => pi_key (snd e)) entries)).
    { now rewrite <- app_assoc. }
    unfold step, parse_step_outcome, succeeded.
    destruct (dict_get (fst e) sp) as [positions|];
      [|now apply IH].
    destruct (reading data positions (snd e)) as [[v|] off]; simpl.
    + rewrite IH; simpl; rewrite dict_set_keys, Hfresh;
        [now rewrite <- app_assoc|exact Hnd2].
    + rewrite IH; [reflexivity|exact Hnd1].
Qed.

Lemma fold_detail_keys (entries : dict pattern_info) (st : parse_state) :
  map d_key (ps_details (fold_left step entries st))
  = map d_key (ps_details st)
    ++ map (fun e => pi_key (snd e)) (filter (succeeded data sp) entries).
Proof.
  revert st. induction entries as [|e entries IH]; intros st; simpl.
  - now rewrite app_nil_r.
  - rewrite IH. unfold step, parse_step_outcome, succeeded.
    destruct (dict_get (fst e) sp) as [positions|]; [|reflexivity].
    destruct (reading data positions (snd e)) as [[v|] off]; simpl.
    + now rewrite map_app, <- app_assoc.
    + reflexivity.
Qed.

Lemma fold_count (entries : dict pattern_info) (st : parse_state) :
  ps_extracted_count (fold_left step entries st)
  = ps_extracted_count st
    + len (filter (succeeded data sp) entries).
Proof.
  revert st. induction entries as [|e entries IH]; intros st; simpl.
  - unfold len. simpl. lia.
  - rewrite IH. unfold step, parse_step_outcome, succeeded.
    destruct (dict_get (fst e) sp) as [positions|]; [|reflexivity].
    destruct (reading data positions (snd e)) as [[v|] off]; simpl.
    + unfold len. cbn [List.length]. lia.
    + reflexivity.
Qed.
End ReportOrder.

Lemma metric_keys_unique :
  NoDup (map (fun e => pi_key (snd e)) metric_patterns).
Proof.
  repeat (constructor;
          [simpl; intros H;
           repeat (destruct H as [H|H]; [discriminate H|]); exact H|]).
  constructor.
Qed.

(** C10.  The report is always produced, and in it the pattern names of
    the extraction details, the failed-extractions list and the keys of
    the metric map in insertion order are the metric definition table, in
    table order, restricted to the labels whose search succeeded, to the
    labels found without an accepted value, and again to the labels whose
    search succeeded.  Where the labels lie in the buffer decides only
    which table entries are kept, never their order. *)
Theorem C10_report_follows_table_order :
  forall (file_path : string) (data : list byte),
    let sp := extract_strings_and_positions data in
    exists r,
      parse_file file_path data = Ok r
      /\ map d_pattern (raw_extraction_details r)
         = map fst (filter (succeeded data sp) metric_patterns)
      /\ ei_failed_extractions (extraction_info r)
         = map fst (filter (found_without_value data sp) metric_patterns)
      /\ dict_keys (metrics r)
         = map (fun e => pi_key (snd e))
               (filter (succeeded data sp) metric_patterns)
      /\ map d_key (raw_extraction_details r) = dict_keys (metrics r).
Proof.
  intros file_path data sp. eexists.
  split; [apply parse_file_ok|].
  cbn [raw_extraction_details extraction_info metrics ei_failed_extractions].
  unfold final_state. fold sp.
  rewrite fold_details, fold_failed, fold_detail_keys.
  rewrite fold_metrics_keys by exact metric_keys_unique.
  repeat split; reflexivity.
Qed.

(** *** Recorded offsets *)

Lemma hex_N_zfill (width : nat) (n : N) :
  hex_N (zfill width (hex_digits n)) = Some n.
Proof.
  unfold zfill. generalize (width - String.length (hex_digits n))%nat as k.
  induction k as [|k IH]; simpl.
  - unfold hex_N, hex_digits. rewrite NilEmpty.usu. simpl.
    now rewrite HexadecimalN.Unsigned.of_to.
  - unfold hex_N in *. simpl.
    destruct (NilEmpty.uint_of_string (zeros k ++ hex_digits n));
      [|discriminate]. simpl in *. exact IH.
Qed.

Lemma hex_N_minus (s : string) : hex_N (String "-" s) = None.
Proof.
  unfold hex_N. simpl. now destruct (NilEmpty.uint_of_string s).
Qed.

Lemma parse_hex_field_format (n : Z) :
  parse_hex_field ("0x" ++ format_04x n) = Some n.
Proof.
  unfold format_04x. destruct (n <? 0) eqn:E.
  - apply Z.ltb_lt in E.
    change (parse_hex_field ("0x" ++ "-" ++ zfill 3 (hex_digits (Z.to_N (- n)))))
      with (match hex_N (String "-" (zfill 3 (hex_digits (Z.to_N (- n))))) with
            | Some m => Some (Z.of_N m)
            | None => option_map (fun m => - Z.of_N m)
                        (hex_N (zfill 3 (hex_digits (Z.to_N (- n)))))
            end).
    rewrite hex_N_minus, hex_N_zfill. simpl. f_equal. lia.
  - apply Z.ltb_ge in E.
    change (parse_hex_field ("0x" ++ zfill 4 (hex_digits (Z.to_N n))))
      with (match hex_N (zfill 4 (hex_digits (Z.to_N n))) with
            | Some m => Some (Z.of_N m)
            | None =>
                match zfill 4 (hex_digits (Z.to_N n)) with
                | String "-" ds =>
                    option_map (fun m => - Z.of_N m) (hex_N ds)
                | _ => None
                end
            end).
    rewrite hex_N_zfill. f_equal. lia.
Qed.

Lemma accepted_value_window (data : list byte) (ty : string) (p d v : Z) :
  accepted_value data ty (p, d) = Some v ->
  extract_value_at_offset data p d = Ok (Some v)
  /\ 0 <= p + d <= len data - 4.
Proof.
  unfold accepted_value. simpl. intros H. rewrite probe_total.
  destruct (in_window data (p + d)) eqn:E; [|discriminate].
  destruct (rejected ty (u32_le_at data (p + d))); [discriminate|].
  injection H as <-. split; [reflexivity|].
  unfold in_window in E. apply andb_true_iff in E. destruct E as [E1 E2].
  apply Z.leb_le in E1, E2. lia.
Qed.

Lemma reading_sound (data : list byte) (positions : list Z)
    (info : pattern_info) (v off : Z) :
  reading data positions info = (Some v, off) ->
  exists p0 rest,
    positions = p0 :: rest
    /\ (exists p,
          In p positions /\ In off search_offsets
          /\ extract_value_at_offset data p off = Ok (Some v)
          /\ 0 <= p + off <= len data - 4)
    /\ (first_accepted data (pi_type info) (probe_pairs [p0]) <> None ->
        extract_value_at_offset data p0 off = Ok (Some v)
        /\ 0 <= p0 + off <= len data - 4).
Proof.
  unfold reading. intros H.
  destruct (first_accepted data (pi_type info) (probe_pairs positions))
    as [[[p d] w]|] eqn:E; simpl in H; [|discriminate].
  injection H as -> ->.
  destruct positions as [|p0 rest]; [discriminate|].
  exists p0, rest. split; [reflexivity|]. split.
  - destruct (first_accepted_split _ _ _ E) as (pre & post & Heq & _ & Hpd).
    assert (Hin : In (p, off) (probe_pairs (p0 :: rest))).
    { rewrite Heq. apply in_or_app. right. now left. }
    unfold probe_pairs in Hin. apply in_flat_map in Hin.
    destruct Hin as (p' & Hp' & Hin). apply in_map_iff in Hin.
    destruct Hin as (d' & Hd' & Hin). injection Hd' as -> ->.
    exists p. apply accepted_value_window in Hpd.
    destruct Hpd as [Hv Hw]. repeat split; try assumption; lia.
  - intros H0. rewrite probe_pairs_cons, first_accepted_app in E.
    change (probe_pairs [p0])
      with (map (fun d => (p0, d)) search_offsets ++ []) in H0.
    rewrite app_nil_r in H0.
    destruct (first_accepted data (pi_type info)
                (map (fun d => (p0, d)) search_offsets))
      as [r|] eqn:E0; [|now contradiction H0].
    injection E as ->.
    destruct (first_accepted_split _ _ _ E0) as (pre & post & Heq & _ & Hpd).
    assert (Hin : In (p, off) (map (fun d => (p0, d)) search_offsets)).
    { rewrite Heq. apply in_or_app. right. now left. }
    apply in_map_iff in Hin. destruct Hin as (d' & Hd' & _).
    injection Hd' as -> ->.
    now apply accepted_value_window in Hpd.
Qed.

Lemma fold_details_sound (data : list byte) (sp : dict (list Z))
    (entries : dict pattern_info) (st : parse_state) :
  Forall (detail_sound data sp) (ps_details st) ->
  Forall (detail_sound data sp)
         (ps_details (fold_left (parse_step_outcome data sp) entries st)).
Proof.
  revert st. induction entries as [|e entries IH]; intros st Hst; simpl.
  - exact Hst.
  - apply IH. unfold parse_step_outcome.
    destruct (dict_get (fst e) sp) as [positions|] eqn:Eg; [|exact Hst].
    destruct (reading data positions (snd e)) as [[v|] off] eqn:Er;
      [|exact Hst].
    simpl. apply Forall_app. split; [exact Hst|].
    constructor; [|constructor].
    destruct (reading_sound _ _ _ Er) as (p0 & rest & -> & Hread & Hfirst).
    exists p0, rest. simpl.
    repeat split; try assumption; try apply parse_hex_field_format;
      now apply Hfirst.
Qed.

(** C6, as stated, fails on the two-occurrence buffer: the value 500 of
    [duration_us] is read at offset 188, twelve bytes before the second
    occurrence (offset 200), while the report records the first
    occurrence, offset 10, and the resolved offset 10 - 12 = -2. *)
Lemma C6_recorded_occurrence_not_the_one_read :
  ~ (forall file_path r d,
       parse_file file_path two_occurrence_buffer = Ok r ->
       In d (raw_extraction_details r) ->
       exists occ res,
         parse_hex_field (d_string_position d) = Some occ
         /\ parse_hex_field (d_extraction_position d) = Some res
         /\ res = occ + d_offset_used d
         /\ extract_value_at_offset two_occurrence_buffer occ
              (d_offset_used d) = Ok (Some (d_value d))
         /\ 0 <= res <= len two_occurrence_buffer - 4).
Proof.
  intros H.
  destruct (H "f" two_occurrence_report two_occurrence_detail)
    as (occ & res & Ho & Hr & _ & _ & Hb).
  - vm_compute. reflexivity.
  - now left.
  - vm_compute in Hr. injection Hr as <-. lia.
Qed.

(** C6, amended.  For every extraction detail of the report, the recorded
    resolved offset is the recorded occurrence offset plus the recorded
    delta, and the recorded occurrence offset is the first occurrence of
    the label in scan order (the one used for reporting).  The accepted
    value was read at [p + delta] for some occurrence [p] of the label,
    with [0 <= p + delta <= len(data) - 4]; whenever the first occurrence
    already yields an accepted value (in particular when the label occurs
    once), the value was read at the recorded occurrence and the recorded
    resolved offset lies in [0, len(data) - 4]. *)
Theorem C6_recorded_offsets :
  forall (file_path : string) (data : list byte),
    exists r,
      parse_file file_path data = Ok r
      /\ Forall (detail_sound data (extract_strings_and_positions data))
                (raw_extraction_details r).
Proof.
  intros file_path data. eexists. split; [apply parse_file_ok|].
  cbn [raw_extraction_details]. unfold final_state.
  apply fold_details_sound. constructor.
Qed.

Lemma C6_recorded_offsets_witness :
  exists r,
    parse_file "f" single_occurrence_buffer = Ok r
    /\ raw_extraction_details r
       = [mk_Detail "duration" "duration_us" 500 "0x0064" 16 "0x0074"
                    "microseconds" "timing"]
    /\ extract_value_at_offset single_occurrence_buffer 100 16
       = Ok (Some 500)
    /\ 0 <= 100 + 16 <= len single_occurrence_buffer - 4.
Proof.
  destruct (C6_recorded_offsets "f" single_occurrence_buffer)
    as (r & Hr & Hall).
  exists r. split; [exact Hr|].
  assert (Hd : raw_extraction_details r
               = [mk_Detail "duration" "duration_us" 500 "0x0064" 16 "0x0074"
                            "microseconds" "timing"]).
  { assert (E : parse_file "f" single_occurrence_buffer
                = Ok (mk_Results
                        (mk_FileInfo "f" 120 "" "")
                        (mk_ExtractionInfo 1 1 [])
                        [("duration_us", 500)]
                        [mk_Detail "duration" "duration_us" 500 "0x0064" 16
                                   "0x0074" "microseconds" "timing"]))
      by (vm_compute; reflexivity).
    rewrite E in Hr. injection Hr as <-. reflexivity. }
  split; [exact Hd|].
  rewrite Hd in Hall. inversion Hall as [|d l Hsound _]; subst.
  destruct Hsound as (p0 & rest & Hget & _ & _ & _ & _ & _ & Hfirst).
  vm_compute in Hget. injection Hget as <- <-.
  apply Hfirst. vm_compute. discriminate.
Defined.

(** *** File metadata *)

Lemma last_cons {A : Type} (x d : A) (l : list A) :
  last (x :: l) d = last l x.
Proof.
  revert x d. induction l as [|y l IH]; intros x d; [reflexivity|].
  change (last (x :: y :: l) d) with (last (y :: l) d).
  now rewrite (IH y d), (IH y x).
Qed.

Lemma metadata_step_eq (acc : string * string) (s : string) (ps : list Z) :
  metadata_step acc (s, ps)
  = if has_version s then (s, snd acc)
    else if has_graph s then (fst acc, s) else acc.
Proof. reflexivity. Qed.

Lemma fold_metadata (sp : dict (list Z)) (bv gn : string) :
  fold_left metadata_step sp (bv, gn)
  = (last (filter has_version (dict_keys sp)) bv,
     last (filter (fun s => negb (has_version s) && has_graph s)
                  (dict_keys sp)) gn).
Proof.
  revert bv gn. induction sp as [|[s ps] sp IH]; intros bv gn;
    [reflexivity|].
  change (fold_left metadata_step ((s, ps) :: sp) (bv, gn))
    with (fold_left metadata_step sp (metadata_step (bv, gn) (s, ps))).
  rewrite metadata_step_eq.
  change (dict_keys ((s, ps) :: sp)) with (s :: dict_keys sp).
  cbn [filter fst snd].
  destruct (has_version s); cbn [negb andb].
  - now rewrite IH, last_cons.
  - destruct (has_graph s).
    + now rewrite IH, last_cons.
    + apply IH.
Qed.

(** C7, as stated, fails: the only label of this buffer contains
    [_quantized_htp], yet no graph name is recorded, because the label
    also contains [v2.35.0] and the graph-name test is the [elif] branch
    of the version test. *)
Lemma C7_graph_test_not_independent :
  ~ (forall r,
       parse_file "f" version_graph_buffer = Ok r ->
       fi_backend_version (file_info r)
       = last (filter has_version
                 (dict_keys (extract_strings_and_positions
                               version_graph_buffer))) ""
       /\ fi_graph_name (file_info r)
          = last (filter has_graph
                    (dict_keys (extract_strings_and_positions
                                  version_graph_buffer))) "").
Proof.
  intros H.
  destruct (H (mk_Results
                 (mk_FileInfo "f" 21 "v2.35.0_quantized_htp" "")
                 (mk_ExtractionInfo 1 0 []) [] [])) as [_ Hg].
  - vm_compute. reflexivity.
  - vm_compute in Hg. discriminate Hg.
Qed.

(** C7, amended.  The labels are visited in the insertion order of the
    scanned map.  [backend_version] is the last visited
    label containing [v2.35.0]; [graph_name] is the last visited label
    that contains one of [_quantized_htp], [_quantized_cpu],
    [_quantized_gpu] and does not contain [v2.35.0] (a label is tested
    for the graph name only when the version test fails).  A field with
    no qualifying label stays empty. *)
Theorem C7_metadata_last_match :
  (forall (sp : dict (list Z)),
     extract_metadata sp
     = (last (filter has_version (dict_keys sp)) "",
        last (filter (fun s => negb (has_version s) && has_graph s)
                     (dict_keys sp)) ""))
  /\ forall (file_path : string) (data : list byte),
       let labels := dict_keys (extract_strings_and_positions data) in
       exists r,
         parse_file file_path data = Ok r
         /\ fi_backend_version (file_info r)
            = last (filter has_version labels) ""
         /\ fi_graph_name (file_info r)
            = last (filter (fun s => negb (has_version s) && has_graph s)
                           labels) "".
Proof.
  split.
  - intros sp. apply fold_metadata.
  - intros file_path data labels. eexists.
    split; [apply parse_file_ok|].
    cbn [file_info fi_backend_version fi_graph_name].
    unfold extract_metadata. rewrite fold_metadata. split; reflexivity.
Qed.

(** ** Derived metrics *)

Lemma float_overflow_large : 2 ^ 62 <= float_overflow.
Proof. apply Z.leb_le. vm_compute. reflexivity. Qed.

Lemma u32_spec (v : Z) : u32 v = true <-> 0 <= v < 4294967296.
Proof.
  unfold u32. rewrite andb_true_iff, Z.leb_le, Z.ltb_lt. reflexivity.
Qed.

Lemma u32_metrics_get (metrics : dict Z) (k : string) (v : Z) :
  u32_metrics metrics = true -> dict_get k metrics = Some v ->
  0 <= v < 4294967296.
Proof.
  intros Hu Hg. apply dict_get_In in Hg. unfold u32_metrics in Hu.
  rewrite forallb_forall in Hu. apply u32_spec. exact (Hu _ Hg).
Qed.

Lemma truediv_int (R : float_runtime) (x y : Z) :
  0 < y -> Z.abs x < float_overflow * y ->
  truediv (@PyInt R x) (PyInt y)
  = ([PyInt y], Ok (PyFloat (float_div_int R x y))).
Proof.
  intros Hy Hx. unfold truediv, num_truediv.
  destruct (Z.eqb_spec y 0) as [E|_]; [lia|].
  destruct (Z.leb_spec (float_overflow * Z.abs y) (Z.abs x)) as [H|_];
    [|reflexivity].
  rewrite (Z.abs_eq y) in H by lia. lia.
Qed.

Lemma truediv_small (R : float_runtime) (x y : Z) :
  0 < y -> 0 <= x < 2 ^ 62 ->
  truediv (@PyInt R x) (PyInt y)
  = ([PyInt y], Ok (PyFloat (float_div_int R x y))).
Proof.
  intros Hy Hx. apply truediv_int; [exact Hy|].
  pose proof float_overflow_large as Hl.
  rewrite Z.abs_eq by lia. nia.
Qed.

Lemma to_float_100 (R : float_runtime) :
  to_float (@PyInt R 100) = Ok (float_of_int R 100).
Proof.
  unfold to_float. pose proof float_overflow_large as Hl.
  destruct (Z.leb_spec float_overflow (Z.abs 100)) as [H|_]; [|reflexivity].
  change (Z.abs 100) with 100 in H. change (2 ^ 62) with 4611686018427387904 in Hl.
  lia.
Qed.

Lemma tbind_ok {N A B : Type} (m : traced N A) (k : A -> traced N B)
    (t t' : list N) (a : A) (r : result B) :
  m = (t, Ok a) -> k a = (t', r) -> tbind m k = (t ++ t', r).
Proof. intros -> H. unfold tbind. now rewrite H. Qed.

Lemma dict_item_get {V : Type} (k : string) (d : dict V) (v : V) :
  dict_get k d = Some v -> dict_item k d = Ok v.
Proof. unfold dict_item. now intros ->. Qed.

Lemma dict_mem_get {V : Type} (k : string) (d : dict V) :
  dict_mem k d = match dict_get k d with Some _ => true | None => false end.
Proof. reflexivity. Qed.

Lemma dict_set_nodup {V : Type} (k : string) (v : V) (d : dict V) :
  NoDup (dict_keys d) -> NoDup (dict_keys (dict_set k v d)).
Proof.
  intros Hnd. rewrite dict_set_keys.
  destruct (dict_mem k d) eqn:E; [exact Hnd|].
  apply NoDup_app; [exact Hnd|repeat constructor; intros []|].
  intros k' Hk' [<-|[]]. apply dict_mem_In in Hk'. congruence.
Qed.

Lemma py_sum_fold_right (l : list Z) : py_sum l = fold_right Z.add 0 l.
Proof.
  unfold py_sum. rewrite <- fold_left_rev_right.
  assert (H : forall l a, fold_right (fun y x => x + y) a l
                          = a + fold_right Z.add 0 l).
  { clear. induction l as [|x l IH]; intros a; simpl; [lia|].
    rewrite IH. lia. }
  rewrite H. simpl.
  clear H. induction l as [|x l IH]; simpl; [reflexivity|].
  rewrite fold_right_app. simpl.
  assert (H : forall l a, fold_right Z.add a l = a + fold_right Z.add 0 l).
  { clear. induction l as [|y l IH]; intros a; simpl; [lia|].
    rewrite IH. lia. }
  rewrite H, IH. lia.
Qed.

Lemma fold_bucket_step (metrics : dict Z) (e f d : list Z) :
  fold_left bucket_step metrics (e, f, d)
  = (e ++ bucket_values in_execution metrics,
     f ++ bucket_values in_finalize metrics,
     d ++ bucket_values in_deinit metrics).
Proof.
  revert e f d. induction metrics as [|[key value] metrics IH];
    intros e f d.
  - unfold bucket_values. simpl. now rewrite !app_nil_r.
  - change (fold_left bucket_step ((key, value) :: metrics) (e, f, d))
      with (fold_left bucket_step metrics
              (bucket_step (e, f, d) (key, value))).
    unfold bucket_values. cbn [filter fst].
    unfold in_deinit, in_finalize, in_execution, bucket_step.
    destruct (str_contains "execute" key && str_contains "time_us" key);
      cbn [negb andb map snd].
    + rewrite IH. unfold bucket_values. now rewrite <- app_assoc.
    + destruct (str_contains "finalize" key && str_contains "time_us" key);
        cbn [negb andb map snd].
      * rewrite IH. unfold bucket_values. now rewrite <- app_assoc.
      * destruct (str_contains "deinit" key && str_contains "time_us" key);
          cbn [map snd].
        -- rewrite IH. unfold bucket_values. now rewrite <- app_assoc.
        -- apply IH.
Qed.

Lemma buckets_spec (metrics : dict Z) :
  buckets metrics
  = (bucket_values in_execution metrics,
     bucket_values in_finalize metrics,
     bucket_values in_deinit metrics).
Proof. unfold buckets. now rewrite fold_bucket_step. Qed.

Lemma bucket_values_u32 (test : string -> bool) (metrics : dict Z) :
  u32_metrics metrics = true ->
  forallb u32 (bucket_values test metrics) = true.
Proof.
  intros Hu. unfold u32_metrics in Hu. rewrite forallb_forall in Hu.
  apply forallb_forall. intros v Hv. unfold bucket_values in Hv.
  apply in_map_iff in Hv. destruct Hv as (kv & <- & Hin).
  apply filter_In in Hin. destruct Hin as [Hin _]. exact (Hu _ Hin).
Qed.

Lemma sum_u32 (times : list Z) :
  forallb u32 times = true ->
  0 <= fold_right Z.add 0 times
    <= 4294967295 * Z.of_nat (List.length times).
Proof.
  induction times as [|x times IH]; intros H.
  - simpl. lia.
  - cbn [forallb] in H. apply andb_true_iff in H. destruct H as [Hx H].
    apply u32_spec in Hx. specialize (IH H).
    cbn [fold_right List.length]. lia.
Qed.

Lemma primary_time_u32 (metrics : dict Z) (t : Z) :
  u32_metrics metrics = true -> primary_time metrics = Some t ->
  0 <= t < 4294967296.
Proof.
  intros Hu. unfold primary_time.
  destruct (dict_get "qnn_execute_time_us" metrics) as [v|] eqn:E.
  - intros H. injection H as <-. exact (u32_metrics_get _ _ Hu E).
  - intros H. exact (u32_metrics_get _ _ Hu H).
Qed.

(** *** The rules, one by one *)

Lemma derive_primary_spec (R : float_runtime) (metrics : dict Z)
    (d : dict (number R)) :
  exists d',
    derive_primary metrics d = ([], Ok d')
    /\ (forall k, k <> "primary_execution_time_us" ->
                  dict_get k d' = dict_get k d)
    /\ dict_get "primary_execution_time_us" d'
       = match primary_time metrics with
         | Some v => Some (PyInt v)
         | None => dict_get "primary_execution_time_us" d
         end
    /\ (NoDup (dict_keys d) -> NoDup (dict_keys d')).
Proof.
  unfold derive_primary, primary_time. rewrite !dict_mem_get.
  destruct (dict_get "qnn_execute_time_us" metrics) as [v|] eqn:E1.
  - rewrite (dict_item_get _ _ E1). eexists. split; [reflexivity|].
    split; [|split].
    + intros k Hk. now apply dict_get_set_other.
    + apply dict_get_set_same.
    + apply dict_set_nodup.
  - destruct (dict_get "accelerator_execute_time_us" metrics) as [v|] eqn:E2.
    + rewrite (dict_item_get _ _ E2). eexists. split; [reflexivity|].
      split; [|split].
      * intros k Hk. now apply dict_get_set_other.
      * apply dict_get_set_same.
      * apply dict_set_nodup.
    + exists d. repeat split. tauto.
Qed.

Lemma derive_throughput_spec (R : float_runtime) (metrics : dict Z)
    (d : dict (number R)) :
  u32_metrics metrics = true ->
  dict_get "primary_execution_time_us" d
  = option_map PyInt (primary_time metrics) ->
  exists d',
    derive_throughput metrics d
    = (match throughput_inputs metrics with
       | Some (t, n) => [PyInt t; PyInt n]
       | None => []
       end, Ok d')
    /\ (forall k, k <> "throughput_inferences_per_second" ->
                  k <> "avg_time_per_inference_us" ->
                  dict_get k d' = dict_get k d)
    /\ dict_get "throughput_inferences_per_second" d'
       = match throughput_inputs metrics with
         | Some (t, n) => Some (PyFloat (float_div_int R (1000000 * n) t))
         | None => dict_get "throughput_inferences_per_second" d
         end
    /\ dict_get "avg_time_per_inference_us" d'
       = match throughput_inputs metrics with
         | Some (t, n) => Some (PyFloat (float_div_int R t n))
         | None => dict_get "avg_time_per_inference_us" d
         end
    /\ (NoDup (dict_keys d) -> NoDup (dict_keys d')).
Proof.
  intros Hu Hp. unfold derive_throughput, throughput_inputs.
  rewrite !dict_mem_get, Hp.
  destruct (primary_time metrics) as [t|] eqn:Et; cbn [option_map andb];
    [|exists d; repeat split; tauto].
  destruct (dict_get "num_inferences" metrics) as [n|] eqn:En;
    [|exists d; repeat split; tauto].
  cbn [option_map] in Hp.
  rewrite (dict_item_get _ _ Hp), (dict_item_get _ _ En).
  cbn [lift tbind app num_gt0].
  destruct ((0 <? t) && (0 <? n)) eqn:G; [|exists d; repeat split; tauto].
  apply andb_true_iff in G. destruct G as [G1 G2].
  apply Z.ltb_lt in G1, G2.
  pose proof (primary_time_u32 _ Hu Et) as Ht.
  pose proof (u32_metrics_get _ _ Hu En) as Hn.
  rewrite (@truediv_small R (1000000 * n) t G1)
    by (change (2 ^ 62) with 4611686018427387904; lia).
  rewrite (@truediv_small R t n G2)
    by (change (2 ^ 62) with 4611686018427387904; lia).
  eexists. split; [reflexivity|]. split; [|split; [|split]].
  - intros k H1 H2. now rewrite !dict_get_set_other.
  - rewrite dict_get_set_other by discriminate. apply dict_get_set_same.
  - apply dict_get_set_same.
  - intros Hnd. now repeat apply dict_set_nodup.
Qed.

Lemma derive_bucket_spec (R : float_runtime) (total_key avg_key : string)
    (times : list Z) (d : dict (number R)) :
  total_key <> avg_key ->
  forallb u32 times = true ->
  exists d',
    derive_bucket total_key avg_key times d = (bucket_divisor R times, Ok d')
    /\ (forall k, k <> total_key -> k <> avg_key ->
                  dict_get k d' = dict_get k d)
    /\ dict_get total_key d'
       = match times with
         | [] => dict_get total_key d
         | _ :: _ => total_of R times
         end
    /\ dict_get avg_key d'
       = match times with
         | [] => dict_get avg_key d
         | _ :: _ => mean_of R times
         end
    /\ (NoDup (dict_keys d) -> NoDup (dict_keys d')).
Proof.
  intros Hne Hu. unfold derive_bucket. destruct times as [|x times].
  - exists d. repeat split. tauto.
  - pose proof (sum_u32 _ Hu) as Hs. rewrite <- py_sum_fold_right in Hs.
    unfold len. set (s := py_sum (x :: times)) in *.
    set (c := Z.of_nat (List.length (x :: times))) in *.
    assert (Hc : 0 < c) by (unfold c; cbn [List.length]; lia).
    rewrite (@truediv_int R s c Hc).
    2:{ pose proof float_overflow_large as Hl.
        change (2 ^ 62) with 4611686018427387904 in Hl.
        rewrite Z.abs_eq by lia. nia. }
    eexists. split; [reflexivity|]. split; [|split; [|split]].
    + intros k H1 H2. now rewrite !dict_get_set_other.
    + rewrite dict_get_set_other by exact Hne.
      rewrite dict_get_set_same. unfold total_of, s.
      now rewrite py_sum_fold_right.
    + rewrite dict_get_set_same. unfold mean_of, s, c.
      now rewrite py_sum_fold_right.
    + intros Hnd. now repeat apply dict_set_nodup.
Qed.

Lemma derive_efficiency_spec (R : float_runtime) (metrics : dict Z)
    (d : dict (number R)) :
  u32_metrics metrics = true ->
  exists d',
    derive_efficiency metrics d
    = (match ratio_inputs metrics "accelerator_execute_time_us"
                                  "qnn_execute_time_us" with
       | Some (_, q) => [PyInt q]
       | None => []
       end, Ok d')
    /\ (forall k, k <> "accelerator_efficiency_percent" ->
                  dict_get k d' = dict_get k d)
    /\ dict_get "accelerator_efficiency_percent" d'
       = match ratio_inputs metrics "accelerator_execute_time_us"
                                    "qnn_execute_time_us" with
         | Some (a, q) =>
             Some (PyFloat (float_mul R (float_div_int R a q)
                                        (float_of_int R 100)))
         | None => dict_get "accelerator_efficiency_percent" d
         end
    /\ (NoDup (dict_keys d) -> NoDup (dict_keys d')).
Proof.
  intros Hu. unfold derive_efficiency, ratio_inputs. rewrite !dict_mem_get.
  destruct (dict_get "accelerator_execute_time_us" metrics) as [a|] eqn:Ea;
    [|exists d; repeat split; tauto].
  destruct (dict_get "qnn_execute_time_us" metrics) as [q|] eqn:Eq;
    [|exists d; repeat split; tauto].
  rewrite (dict_item_get _ _ Ea), (dict_item_get _ _ Eq).
  cbn [andb lift tbind app].
  destruct (0 <? q) eqn:G; [|exists d; repeat split; tauto].
  apply Z.ltb_lt in G.
  pose proof (u32_metrics_get _ _ Hu Ea) as Ha.
  rewrite (@truediv_small R a q G)
    by (change (2 ^ 62) with 4611686018427387904; lia).
  unfold num_mul. rewrite to_float_100. cbn [to_float bind].
  eexists. split; [reflexivity|]. split; [|split].
  - intros k Hk. now apply dict_get_set_other.
  - apply dict_get_set_same.
  - apply dict_set_nodup.
Qed.

Lemma derive_rpc_overhead_spec (R : float_runtime) (metrics : dict Z)
    (d : dict (number R)) :
  u32_metrics metrics = true ->
  exists d',
    derive_rpc_overhead metrics d
    = (match ratio_inputs metrics "rpc_execute_time_us"
                                  "accelerator_execute_time_us" with
       | Some (_, a) => [PyInt a]
       | None => []
       end, Ok d')
    /\ (forall k, k <> "rpc_overhead_ratio" -> dict_get k d' = dict_get k d)
    /\ dict_get "rpc_overhead_ratio" d'
       = match ratio_inputs metrics "rpc_execute_time_us"
                                    "accelerator_execute_time_us" with
         | Some (r, a) => Some (PyFloat (float_div_int R r a))
         | None => dict_get "rpc_overhead_ratio" d
         end
    /\ (NoDup (dict_keys d) -> NoDup (dict_keys d')).
Proof.
  intros Hu. unfold derive_rpc_overhead, ratio_inputs.
  rewrite !dict_mem_get.
  destruct (dict_get "rpc_execute_time_us" metrics) as [r|] eqn:Er;
    [|exists d; repeat split; tauto].
  destruct (dict_get "accelerator_execute_time_us" metrics) as [a|] eqn:Ea;
    [|exists d; repeat split; tauto].
  rewrite (dict_item_get _ _ Er), (dict_item_get _ _ Ea).
  cbn [andb lift tbind app].
  destruct (0 <? a) eqn:G; [|exists d; repeat split; tauto].
  apply Z.ltb_lt in G.
  pose proof (u32_metrics_get _ _ Hu Er) as Hr.
  rewrite (@truediv_small R r a G)
    by (change (2 ^ 62) with 4611686018427387904; lia).
  eexists. split; [reflexivity|]. split; [|split].
  - intros k Hk. now apply dict_get_set_other.
  - apply dict_get_set_same.
  - apply dict_set_nodup.
Qed.

Lemma not_in_by_eqb (k : string) (l : list string) :
  forallb (fun k' => negb (String.eqb k k')) l = true -> ~ In k l.
Proof.
  induction l as [|k' l IH]; simpl; [tauto|].
  intros H [E|Hin].
  - subst k'. now rewrite String.eqb_refl in H.
  - apply andb_true_iff in H. now apply IH.
Qed.

(** *** The whole calculation *)

(** On 32-bit metric values the calculation returns a map, divides by
    the guarded divisors and by nothing else, and the map holds, key by
    key, what the rules assign. *)
Lemma derived_spec (R : float_runtime) (metrics : dict Z) :
  u32_metrics metrics = true ->
  exists derived,
    calculate_derived_metrics R metrics
    = (guarded_divisors R metrics, Ok derived)
    /\ NoDup (dict_keys derived)
    /\ (forall k, ~ In k derived_keys -> dict_get k derived = None)
    /\ dict_get "primary_execution_time_us" derived
       = option_map PyInt (primary_time metrics)
    /\ dict_get "throughput_inferences_per_second" derived
       = option_map (fun tn => PyFloat (float_div_int R (1000000 * snd tn)
                                                      (fst tn)))
                    (throughput_inputs metrics)
    /\ dict_get "avg_time_per_inference_us" derived
       = option_map (fun tn => PyFloat (float_div_int R (fst tn) (snd tn)))
                    (throughput_inputs metrics)
    /\ (dict_get "total_execution_time_us" derived
        = total_of R (bucket_values in_execution metrics)
        /\ dict_get "avg_execution_time_us" derived
           = mean_of R (bucket_values in_execution metrics))
    /\ (dict_get "total_finalize_time_us" derived
        = total_of R (bucket_values in_finalize metrics)
        /\ dict_get "avg_finalize_time_us" derived
           = mean_of R (bucket_values in_finalize metrics))
    /\ (dict_get "total_deinit_time_us" derived
        = total_of R (bucket_values in_deinit metrics)
        /\ dict_get "avg_deinit_time_us" derived
           = mean_of R (bucket_values in_deinit metrics))
    /\ dict_get "accelerator_efficiency_percent" derived
       = option_map
           (fun aq => PyFloat (float_mul R (float_div_int R (fst aq) (snd aq))
                                           (float_of_int R 100)))
           (ratio_inputs metrics "accelerator_execute_time_us"
                                 "qnn_execute_time_us")
    /\ dict_get "rpc_overhead_ratio" derived
       = option_map
           (fun ra => PyFloat (float_div_int R (fst ra) (snd ra)))
           (ratio_inputs metrics "rpc_execute_time_us"
                                 "accelerator_execute_time_us").
Proof.
  intros Hu.
  destruct (@derive_primary_spec R metrics []) as (d1 & E1 & F1 & P1 & N1).
  assert (P1' : dict_get "primary_execution_time_us" d1
                = option_map PyInt (primary_time metrics)).
  { rewrite P1. now destruct (primary_time metrics). }
  destruct (@derive_throughput_spec R metrics d1 Hu P1')
    as (d2 & E2 & F2 & T2 & A2 & N2).
  set (et := bucket_values in_execution metrics).
  set (ft := bucket_values in_finalize metrics).
  set (dt := bucket_values in_deinit metrics).
  destruct (@derive_bucket_spec R "total_execution_time_us"
              "avg_execution_time_us" et d2)
    as (d3 & E3 & F3 & T3 & A3 & N3);
    [discriminate|apply bucket_values_u32; exact Hu|].
  destruct (@derive_bucket_spec R "total_finalize_time_us"
              "avg_finalize_time_us" ft d3)
    as (d4 & E4 & F4 & T4 & A4 & N4);
    [discriminate|apply bucket_values_u32; exact Hu|].
  destruct (@derive_bucket_spec R "total_deinit_time_us"
              "avg_deinit_time_us" dt d4)
    as (d5 & E5 & F5 & T5 & A5 & N5);
    [discriminate|apply bucket_values_u32; exact Hu|].
  destruct (@derive_efficiency_spec R metrics d5 Hu)
    as (d6 & E6 & F6 & V6 & N6).
  destruct (@derive_rpc_overhead_spec R metrics d6 Hu)
    as (d7 & E7 & F7 & V7 & N7).
  assert (H1 : forall k, k <> "primary_execution_time_us" ->
                         dict_get k d1 = None).
  { intros k Hk. now rewrite F1. }
  exists d7. split.
  { unfold calculate_derived_metrics, guarded_divisors.
    rewrite buckets_spec. fold et ft dt. cbv beta iota zeta.
    change (match throughput_inputs metrics with
            | Some (t, n) => [@PyInt R t; PyInt n]
            | None => []
            end ++ bucket_divisor R et ++ bucket_divisor R ft
              ++ bucket_divisor R dt
              ++ match ratio_inputs metrics "accelerator_execute_time_us"
                                            "qnn_execute_time_us" with
                 | Some (_, q) => [PyInt q]
                 | None => []
                 end
              ++ match ratio_inputs metrics "rpc_execute_time_us"
                                            "accelerator_execute_time_us" with
                 | Some (_, a) => [PyInt a]
                 | None => []
                 end)
      with ([] ++ match throughput_inputs metrics with
            | Some (t, n) => [@PyInt R t; PyInt n]
            | None => []
            end ++ bucket_divisor R et ++ bucket_divisor R ft
              ++ bucket_divisor R dt
              ++ match ratio_inputs metrics "accelerator_execute_time_us"
                                            "qnn_execute_time_us" with
                 | Some (_, q) => [PyInt q]
                 | None => []
                 end
              ++ match ratio_inputs metrics "rpc_execute_time_us"
                                            "accelerator_execute_time_us" with
                 | Some (_, a) => [PyInt a]
                 | None => []
                 end).
    eapply tbind_ok; [exact E1|]. eapply tbind_ok; [exact E2|].
    eapply tbind_ok; [exact E3|]. eapply tbind_ok; [exact E4|].
    eapply tbind_ok; [exact E5|]. eapply tbind_ok; [exact E6|].
    exact E7. }
  split.
  { apply N7, N6, N5, N4, N3, N2, N1. constructor. }
  assert (H67 : forall k, k <> "accelerator_efficiency_percent" ->
                          k <> "rpc_overhead_ratio" ->
                          dict_get k d7 = dict_get k d5).
  { intros k Ha Hb. now rewrite F7, F6. }
  assert (H2 : forall k,
             ~ In k ["primary_execution_time_us";
                     "throughput_inferences_per_second";
                     "avg_time_per_inference_us"] ->
             dict_get k d2 = None).
  { intros k Hk. rewrite F2, H1; [reflexivity| | |];
      intros ->; apply Hk; simpl; tauto. }
  assert (H5 : forall k,
             ~ In k ["total_execution_time_us"; "avg_execution_time_us";
                     "total_finalize_time_us"; "avg_finalize_time_us";
                     "total_deinit_time_us"; "avg_deinit_time_us"] ->
             dict_get k d5 = dict_get k d2).
  { intros k Hk. rewrite F5, F4, F3; [reflexivity| | | | | |];
      intros ->; apply Hk; simpl; tauto. }
  split.
  { intros k Hk. unfold derived_keys in Hk. simpl in Hk.
    rewrite H67, H5, H2; [reflexivity| | | |];
      try (intros Hin; apply Hk; simpl in Hin; tauto);
      intros ->; apply Hk; tauto. }
  split.
  { rewrite H67 by discriminate.
    rewrite H5 by (apply not_in_by_eqb; reflexivity).
    rewrite F2 by discriminate. exact P1'. }
  split.
  { rewrite H67 by discriminate.
    rewrite H5 by (apply not_in_by_eqb; reflexivity).
    rewrite T2, (H1 "throughput_inferences_per_second") by discriminate.
    now destruct (throughput_inputs metrics) as [[t n]|]. }
  split.
  { rewrite H67 by discriminate.
    rewrite H5 by (apply not_in_by_eqb; reflexivity).
    rewrite A2, (H1 "avg_time_per_inference_us") by discriminate.
    now destruct (throughput_inputs metrics) as [[t n]|]. }
  split.
  { split.
    - rewrite H67 by discriminate. rewrite F5, F4 by discriminate.
      rewrite T3, H2 by (apply not_in_by_eqb; reflexivity).
      now destruct et.
    - rewrite H67 by discriminate. rewrite F5, F4 by discriminate.
      rewrite A3, H2 by (apply not_in_by_eqb; reflexivity).
      now destruct et. }
  split.
  { split.
    - rewrite H67 by discriminate. rewrite F5 by discriminate.
      rewrite T4, F3 by discriminate.
      rewrite H2 by (apply not_in_by_eqb; reflexivity).
      now destruct ft.
    - rewrite H67 by discriminate. rewrite F5 by discriminate.
      rewrite A4, F3 by discriminate.
      rewrite H2 by (apply not_in_by_eqb; reflexivity).
      now destruct ft. }
  split.
  { split.
    - rewrite H67 by discriminate.
      rewrite T5, F4, F3 by discriminate.
      rewrite H2 by (apply not_in_by_eqb; reflexivity).
      now destruct dt.
    - rewrite H67 by discriminate.
      rewrite A5, F4, F3 by discriminate.
      rewrite H2 by (apply not_in_by_eqb; reflexivity).
      now destruct dt. }
  assert (H5n : forall k, k = "accelerator_efficiency_percent"
                          \/ k = "rpc_overhead_ratio" ->
                          dict_get k d5 = None).
  { intros k Hk. rewrite H5, H2; [reflexivity| |];
      apply not_in_by_eqb; destruct Hk as [->| ->]; reflexivity. }
  split.
  - rewrite F7 by discriminate. rewrite V6.
    destruct (ratio_inputs metrics "accelerator_execute_time_us"
                "qnn_execute_time_us") as [[a q]|]; [reflexivity|].
    apply H5n. now left.
  - rewrite V7.
    destruct (ratio_inputs metrics "rpc_execute_time_us"
                "accelerator_execute_time_us") as [[r a]|]; [reflexivity|].
    rewrite F6 by discriminate. apply H5n. now right.
Qed.

Lemma guarded_divisors_positive (R : float_runtime) (metrics : dict Z) :
  Forall (@positive_divisor R) (guarded_divisors R metrics).
Proof.
  assert (Hb : forall times, Forall (@positive_divisor R)
                                    (bucket_divisor R times)).
  { intros [|x times]; [constructor|]. repeat constructor.
    eexists. split; [reflexivity|]. cbn [List.length]. lia. }
  assert (Hr : forall nk dk,
             Forall (@positive_divisor R)
                    match ratio_inputs metrics nk dk with
                    | Some (_, b) => [PyInt b]
                    | None => []
                    end).
  { intros nk dk. unfold ratio_inputs.
    destruct (dict_get nk metrics) as [a|]; [|constructor].
    destruct (dict_get dk metrics) as [b|]; [|constructor].
    destruct (0 <? b) eqn:G; [|constructor].
    apply Z.ltb_lt in G. repeat constructor. now exists b. }
  unfold guarded_divisors. repeat (apply Forall_app; split);
    try apply Hb; try apply Hr.
  unfold throughput_inputs.
  destruct (primary_time metrics) as [t|]; [|constructor].
  destruct (dict_get "num_inferences" metrics) as [n|]; [|constructor].
  destruct ((0 <? t) && (0 <? n)) eqn:G; [|constructor].
  apply andb_true_iff in G. destruct G as [G1 G2].
  apply Z.ltb_lt in G1, G2.
  repeat constructor; [now exists t|now exists n].
Qed.

(** Beyond the float range the calculation does raise: with an execution
    time of [10 ^ 400] microseconds for one inference, the second
    division of the throughput rule overflows. *)
Remark derived_overflow_beyond_float_range :
  forall R : float_runtime,
    snd (calculate_derived_metrics R
           [("qnn_execute_time_us", 10 ^ 400); ("num_inferences", 1)])
    = Raise OverflowError.
Proof. intros R. vm_compute. reflexivity. Qed.

(** C8.  On every map of primitive metrics, whose values are unsigned
    32-bit integers, the derived-metric calculation returns a map and
    does not raise.  The divisors of the divisions it performs (the trace
    lists them in execution order) are exactly the guarded ones: the
    primary time and the inference count when both are positive, the
    size of each non-empty bucket, [qnn_execute_time_us] when positive
    and [accelerator_execute_time_us] when positive; each is a positive
    integer.  The calculation returns the empty map when no rule's
    precondition holds, that is when neither [qnn_execute_time_us] nor
    [accelerator_execute_time_us] is present and the three buckets are
    empty. *)
Theorem C8_derived_metrics_total :
  forall (R : float_runtime) (metrics : dict Z),
    u32_metrics metrics = true ->
    (exists derived, snd (calculate_derived_metrics R metrics) = Ok derived)
    /\ fst (calculate_derived_metrics R metrics) = guarded_divisors R metrics
    /\ Forall (@positive_divisor R)
              (fst (calculate_derived_metrics R metrics))
    /\ (dict_mem "qnn_execute_time_us" metrics = false ->
        dict_mem "accelerator_execute_time_us" metrics = false ->
        buckets metrics = ([], [], []) ->
        calculate_derived_metrics R metrics = ([], Ok [])).
Proof.
  intros R metrics Hu.
  destruct (@derived_spec R metrics Hu) as (d & E & _).
  split; [|split; [|split]].
  - exists d. now rewrite E.
  - now rewrite E.
  - rewrite E. apply guarded_divisors_positive.
  - intros H1 H2 H3. clear E.
    unfold calculate_derived_metrics, derive_primary, derive_throughput,
      derive_efficiency, derive_rpc_overhead.
    rewrite H1, H2, H3. cbn [tbind tret app dict_mem dict_get andb].
    cbn [derive_bucket tbind tret app].
    now rewrite andb_false_r.
Qed.

Lemma C8_derived_metrics_total_witness :
  u32_metrics [("qnn_execute_time_us", 2000); ("num_inferences", 10)] = true
  /\ exists derived,
       snd (calculate_derived_metrics exact_runtime
              [("qnn_execute_time_us", 2000); ("num_inferences", 10)])
       = Ok derived.
Proof.
  split; [reflexivity|].
  destruct (@C8_derived_metrics_total exact_runtime
              [("qnn_execute_time_us", 2000); ("num_inferences", 10)]
              eq_refl)
    as (H & _).
  exact H.
Defined.

(** *** Buckets *)

Lemma table_keys_tests_agree :
  forallb (fun e =>
             Bool.eqb (in_execution (pi_key (snd e)))
                      (stated_bucket_test "execute" (pi_key (snd e)))
             && Bool.eqb (in_finalize (pi_key (snd e)))
                         (stated_bucket_test "finalize" (pi_key (snd e)))
             && Bool.eqb (in_deinit (pi_key (snd e)))
                         (stated_bucket_test "deinit" (pi_key (snd e))))
          metric_patterns = true.
Proof. vm_compute. reflexivity. Qed.

Lemma bucket_values_ext (f g : string -> bool) (m : dict Z) :
  (forall k, In k (dict_keys m) -> f k = g k) ->
  bucket_values f m = bucket_values g m.
Proof.
  intros H. unfold bucket_values. f_equal. apply filter_ext_in.
  intros [k v] Hin. apply H. unfold dict_keys.
  apply in_map_iff. now exists (k, v).
Qed.

Lemma table_keyed_spec (metrics : dict Z) (k : string) :
  table_keyed metrics = true -> In k (dict_keys metrics) ->
  In k (map (fun e => pi_key (snd e)) metric_patterns).
Proof.
  unfold table_keyed. rewrite forallb_forall. intros H Hin.
  specialize (H _ Hin). apply existsb_exists in H.
  destruct H as (k' & Hk' & E). apply String.eqb_eq in E. now subst k'.
Qed.

Lemma table_keyed_buckets (metrics : dict Z) :
  table_keyed metrics = true ->
  bucket_values in_execution metrics
  = bucket_values (stated_bucket_test "execute") metrics
  /\ bucket_values in_finalize metrics
     = bucket_values (stated_bucket_test "finalize") metrics
  /\ bucket_values in_deinit metrics
     = bucket_values (stated_bucket_test "deinit") metrics.
Proof.
  intros Ht.
  assert (Hk : forall k, In k (dict_keys metrics) ->
            in_execution k = stated_bucket_test "execute" k
            /\ in_finalize k = stated_bucket_test "finalize" k
            /\ in_deinit k = stated_bucket_test "deinit" k).
  { intros k Hin. apply (@table_keyed_spec _ _ Ht) in Hin.
    apply in_map_iff in Hin. destruct Hin as (e & <- & Hin).
    pose proof table_keys_tests_agree as H.
    rewrite forallb_forall in H. specialize (H _ Hin).
    apply andb_true_iff in H. destruct H as [H H3].
    apply andb_true_iff in H. destruct H as [H1 H2].
    apply Bool.eqb_prop in H1, H2, H3. now repeat split. }
  repeat split; apply bucket_values_ext; intros k Hin; now apply Hk.
Qed.

(** Off the definition table the substring test of the code and the
    suffix test differ: the key [execute_time_us_total] contains
    [execute] and [time_us] but does not end with [time_us], and the key
    [execute_finalize_time_us] passes the suffix tests of two buckets,
    of which the code fills the first only. *)
Remark buckets_substring_tests_off_table :
  buckets [("execute_time_us_total", 7)] = ([7], [], [])
  /\ stated_bucket_test "execute" "execute_time_us_total" = false
  /\ buckets [("execute_finalize_time_us", 5)] = ([5], [], [])
  /\ stated_bucket_test "finalize" "execute_finalize_time_us" = true.
Proof. repeat split; vm_compute; reflexivity. Qed.

(** C9.  On every map of primitive metrics (keys of the metric
    definition table, unsigned 32-bit values) the execution bucket holds
    the values of exactly the keys that contain [execute] and end with
    [time_us], the finalize bucket those of the keys that contain
    [finalize] and end with [time_us], the deinit bucket those of the
    keys that contain [deinit] and end with [time_us], each in the order
    of the map.  [primary_execution_time_us] is not a key of the map and
    passes none of the tests.  For each non-empty bucket the derived map
    holds [total_<bucket>_time_us], the sum of the bucket's values, and
    [avg_<bucket>_time_us], the sum divided by the number of values; for
    an empty bucket it holds neither. *)
Theorem C9_buckets_of_primitive_metrics :
  forall (R : float_runtime) (metrics : dict Z),
    table_keyed metrics = true ->
    u32_metrics metrics = true ->
    let execution_times :=
      bucket_values (stated_bucket_test "execute") metrics in
    let finalize_times :=
      bucket_values (stated_bucket_test "finalize") metrics in
    let deinit_times :=
      bucket_values (stated_bucket_test "deinit") metrics in
    buckets metrics = (execution_times, finalize_times, deinit_times)
    /\ ~ In "primary_execution_time_us" (dict_keys metrics)
    /\ stated_bucket_test "execute" "primary_execution_time_us" = false
    /\ stated_bucket_test "finalize" "primary_execution_time_us" = false
    /\ stated_bucket_test "deinit" "primary_execution_time_us" = false
    /\ exists derived,
         snd (calculate_derived_metrics R metrics) = Ok derived
         /\ dict_get "total_execution_time_us" derived
            = total_of R execution_times
         /\ dict_get "avg_execution_time_us" derived
            = mean_of R execution_times
         /\ dict_get "total_finalize_time_us" derived
            = total_of R finalize_times
         /\ dict_get "avg_finalize_time_us" derived
            = mean_of R finalize_times
         /\ dict_get "total_deinit_time_us" derived
            = total_of R deinit_times
         /\ dict_get "avg_deinit_time_us" derived
            = mean_of R deinit_times.
Proof.
  intros R metrics Ht Hu execution_times finalize_times deinit_times.
  destruct (@table_keyed_buckets _ Ht) as (Be & Bf & Bd).
  fold execution_times in Be. fold finalize_times in Bf.
  fold deinit_times in Bd.
  split; [rewrite buckets_spec, Be, Bf, Bd; reflexivity|].
  split.
  { intros Hin. apply (@table_keyed_spec _ _ Ht) in Hin.
    revert Hin. apply not_in_by_eqb. vm_compute. reflexivity. }
  do 3 (split; [reflexivity|]).
  destruct (@derived_spec R metrics Hu)
    as (d & E & _ & _ & _ & _ & _ & (Te & Ae) & (Tf & Af) & (Td & Ad) & _).
  rewrite Be in Te, Ae. rewrite Bf in Tf, Af. rewrite Bd in Td, Ad.
  exists d. split; [now rewrite E|]. now repeat split.
Qed.

Lemma C9_buckets_of_primitive_metrics_witness :
  buckets [("qnn_deinit_time_us", 30); ("qnn_execute_time_us", 2000);
           ("rpc_execute_time_us", 2600); ("num_inferences", 10)]
  = ([2000; 2600], [], [30])
  /\ exists derived,
       snd (calculate_derived_metrics exact_runtime
              [("qnn_deinit_time_us", 30); ("qnn_execute_time_us", 2000);
               ("rpc_execute_time_us", 2600); ("num_inferences", 10)])
       = Ok derived
       /\ dict_get "total_execution_time_us" derived = Some (PyInt 4600)
       /\ dict_get "avg_execution_time_us" derived
          = Some (PyFloat (float_div_int exact_runtime 4600 2)).
Proof.
  destruct (@C9_buckets_of_primitive_metrics exact_runtime
              [("qnn_deinit_time_us", 30); ("qnn_execute_time_us", 2000);
               ("rpc_execute_time_us", 2600); ("num_inferences", 10)]
              eq_refl eq_refl)
    as (Hb & _ & _ & _ & _ & derived & Hs & Ht & Ha & _).
  split; [exact Hb|].
  exists derived. split; [exact Hs|]. split; [exact Ht|exact Ha].
Defined.

(* ================================================================== *)
(** * Further properties *)

(** ** The label scan: exactly the maximal runs *)

Lemma closed_run_app (pre ext : list byte) (o : Z) (run : list byte) :
  closed_run pre o run -> closed_run (pre ++ ext) o run.
Proof.
  intros (before & b & post & -> & Ho & Hrun & Hl & Hb).
  exists before, b, (post ++ ext).
  repeat split; try assumption.
  now rewrite <- !app_assoc.
Qed.

Lemma closed_run_maximal (data : list byte) (o : Z) (run : list byte) :
  closed_run data o run -> maximal_run data o run.
Proof.
  intros (before & b & post & -> & Ho & Hrun & Hl & Hb).
  exists before, (b :: post). repeat split; try assumption.
  right. now exists b, post.
Qed.

Lemma entry_runs_impl (R1 R2 : Z -> list byte -> Prop)
    (e : string * list Z) :
  (forall o run, R1 o run -> R2 o run) -> entry_runs R1 e -> entry_runs R2 e.
Proof.
  intros HR. unfold entry_runs. apply Forall_impl.
  intros o (run & H3 & Hs & Hr). exists run. repeat split; auto.
Qed.

(** Flushing the run under construction when the byte [b] ends it. *)
Lemma flush_runs (before run : list byte) (b : byte) (sp : dict (list Z)) :
  Forall (fun b => printable b = true) run ->
  left_break before ->
  printable b = false ->
  Forall (entry_runs (closed_run (before ++ run))) sp ->
  Forall (entry_runs (closed_run ((before ++ run) ++ [b])))
         (flush sp (str_of_bytes run) (len before)).
Proof.
  intros Hrun Hl Hb Hsp.
  assert (Hold : Forall (entry_runs (closed_run ((before ++ run) ++ [b])))
                        sp).
  { revert Hsp. apply Forall_impl. intros e. apply entry_runs_impl.
    intros o r. apply closed_run_app. }
  unfold flush. rewrite str_of_bytes_length.
  destruct (3 <=? List.length run)%nat eqn:E3; [|exact Hold].
  apply Nat.leb_le in E3.
  assert (Hnew : exists r, (3 <= List.length r)%nat
                           /\ str_of_bytes r = str_of_bytes run
                           /\ closed_run ((before ++ run) ++ [b])
                                         (len before) r).
  { exists run. repeat split; try assumption.
    exists before, b, []. repeat split; try assumption.
    now rewrite <- app_assoc. }
  apply record_occurrence_Forall; [exact Hold| |].
  - intros l Hl'. rewrite Forall_forall in Hold.
    specialize (Hold _ Hl'). unfold entry_runs in *. simpl in *.
    apply Forall_app. split; [exact Hold|]. now constructor.
  - unfold entry_runs. simpl. now constructor.
Qed.

Lemma scan_step_runs (pre : list byte) (st : scan_state) (b : byte) :
  scan_runs pre st -> scan_runs (pre ++ [b]) (scan_step st (len pre, b)).
Proof.
  intros (before & run & -> & Hrun & Hl & Hcur & Hstart & Hsp).
  unfold scan_step. destruct (printable b) eqn:Eb.
  - exists before, (run ++ [b]). simpl. repeat split.
    + now rewrite app_assoc.
    + apply Forall_app. split; [assumption|now constructor].
    + exact Hl.
    + now rewrite Hcur, str_of_bytes_app.
    + intros _. rewrite Hcur.
      destruct (String.eqb (str_of_bytes run) "") eqn:E.
      * apply str_of_bytes_empty in E. subst run. now rewrite app_nil_r.
      * apply Hstart. intros ->. discriminate.
    + revert Hsp. apply Forall_impl. intros e. apply entry_runs_impl.
      intros o r. apply closed_run_app.
  - exists ((before ++ run) ++ [b]), []. simpl. repeat split.
    + now rewrite app_nil_r.
    + constructor.
    + right. now exists (before ++ run), b.
    + intros H. now contradiction H.
    + rewrite Hcur. destruct run as [|r0 run'].
      * unfold flush. simpl. revert Hsp. apply Forall_impl. intros e.
        apply entry_runs_impl. intros o r. apply closed_run_app.
      * rewrite Hstart by discriminate. now apply flush_runs.
Qed.

Lemma scan_loop_runs (data : list byte) : scan_runs data (scan_loop data).
Proof.
  induction data as [|b pre IH] using rev_ind.
  - exists [], []. simpl. repeat split; try constructor.
    reflexivity.
  - rewrite scan_loop_snoc. now apply scan_step_runs.
Qed.

Lemma dict_get_append_other {A : Type} (k k' : string) (x : A)
    (d : dict (list A)) :
  k <> k' -> dict_get k (dict_append k' x d) = dict_get k d.
Proof.
  intros Hne. induction d as [|[k2 l] d IH]; simpl; [reflexivity|].
  destruct (String.eqb_spec k' k2) as [->|Hne2]; simpl.
  - apply String.eqb_neq in Hne. now rewrite Hne.
  - now rewrite IH.
Qed.

Lemma recorded_record_occurrence (sp : dict (list Z)) (s s' : string)
    (o pos : Z) :
  recorded sp s o -> recorded (record_occurrence sp s' pos) s o.
Proof.
  intros (offs & Hget & Hin). unfold recorded.
  destruct (String.eqb_spec s s') as [<-|Hne].
  - rewrite record_occurrence_get, Hget. eexists. split; [reflexivity|].
    apply in_or_app. now left.
  - exists offs. split; [|exact Hin].
    unfold record_occurrence.
    rewrite dict_get_append_other by exact Hne.
    destruct (negb (dict_mem s' sp)); [|exact Hget].
    now rewrite dict_get_set_other.
Qed.

Lemma recorded_flush (sp : dict (list Z)) (s cur : string) (o start : Z) :
  recorded sp s o -> recorded (flush sp cur start) s o.
Proof.
  intros H. unfold flush.
  destruct (3 <=? String.length cur)%nat; [|exact H].
  now apply recorded_record_occurrence.
Qed.

Lemma recorded_scan_step (st : scan_state) (ib : Z * byte) (s : string)
    (o : Z) :
  recorded (strings_positions st) s o ->
  recorded (strings_positions (scan_step st ib)) s o.
Proof.
  intros H. destruct ib as [i b]. unfold scan_step.
  destruct (printable b); simpl; [exact H|]. now apply recorded_flush.
Qed.

Lemma recorded_fold (items : list (Z * byte)) (st : scan_state) (s : string)
    (o : Z) :
  recorded (strings_positions st) s o ->
  recorded (strings_positions (fold_left scan_step items st)) s o.
Proof.
  revert st. induction items as [|ib items IH]; intros st H; simpl.
  - exact H.
  - apply IH. now apply recorded_scan_step.
Qed.

(** The scan of [pre ++ rest] continues the scan of [pre]. *)
Lemma scan_loop_app (pre rest : list byte) :
  scan_loop (pre ++ rest)
  = fold_left scan_step (enumerate_from (len pre) rest) (scan_loop pre).
Proof.
  unfold scan_loop, enumerate.
  now rewrite enumerate_from_app, fold_left_app.
Qed.

Lemma scan_loop_run (before run : list byte) :
  left_break before ->
  Forall (fun b => printable b = true) run ->
  run <> [] ->
  scan_loop (before ++ run)
  = mk_scan_state (strings_positions (scan_loop before))
                  (str_of_bytes run) (len before).
Proof.
  intros Hl Hrun Hne. rewrite scan_loop_app.
  rewrite scan_printable_run by assumption.
  rewrite (scan_loop_after_break Hl). simpl.
  destruct run; [now contradiction Hne|reflexivity].
Qed.

Lemma recorded_extract_after (pre rest : list byte) (s : string) (o : Z) :
  recorded (strings_positions (scan_loop pre)) s o ->
  recorded (extract_strings_and_positions (pre ++ rest)) s o.
Proof.
  intros H. unfold extract_strings_and_positions.
  apply recorded_flush. rewrite scan_loop_app. now apply recorded_fold.
Qed.

Lemma recorded_In (sp : dict (list Z)) (s : string) (o : Z) :
  recorded sp s o -> exists offs, In (s, offs) sp /\ In o offs.
Proof.
  intros (offs & Hget & Hin). exists offs. split; [|exact Hin].
  now apply dict_get_In.
Qed.

Lemma extract_entries_maximal (data : list byte) :
  Forall (entry_runs (maximal_run data)) (extract_strings_and_positions data).
Proof.
  destruct (scan_loop_runs data)
    as (before & run & Hdata & Hrun & Hl & Hcur & Hstart & Hsp).
  assert (Hold : Forall (entry_runs (maximal_run data))
                        (strings_positions (scan_loop data))).
  { revert Hsp. apply Forall_impl. intros e. apply entry_runs_impl.
    intros o' r. apply closed_run_maximal. }
  unfold extract_strings_and_positions, flush.
  destruct (3 <=? String.length (current_string (scan_loop data)))%nat
    eqn:E3; [|exact Hold].
  rewrite Hcur in *. rewrite str_of_bytes_length in E3.
  apply Nat.leb_le in E3.
  assert (Hne : run <> []) by (intros ->; simpl in E3; lia).
  rewrite (Hstart Hne).
  assert (Hnew : exists r, (3 <= List.length r)%nat
                           /\ str_of_bytes r = str_of_bytes run
                           /\ maximal_run data (len before) r).
  { exists run. repeat split; try assumption.
    exists before, []. repeat split; try assumption.
    - now rewrite app_nil_r.
    - now left. }
  apply record_occurrence_Forall; [exact Hold| |].
  - intros l Hl'. rewrite Forall_forall in Hold.
    specialize (Hold _ Hl'). unfold entry_runs in *. simpl in *.
    apply Forall_app. split; [exact Hold|]. now constructor.
  - unfold entry_runs. simpl. now constructor.
Qed.

Lemma scan_recorded_sound (data : list byte) (s : string) (o : Z) :
  recorded (extract_strings_and_positions data) s o ->
  exists run,
    (3 <= List.length run)%nat /\ str_of_bytes run = s
    /\ maximal_run data o run.
Proof.
  intros Hrec. apply recorded_In in Hrec.
  destruct Hrec as (offs & Hin & Ho).
  pose proof (extract_entries_maximal data) as Hall.
  rewrite Forall_forall in Hall. specialize (Hall _ Hin).
  unfold entry_runs in Hall. simpl in Hall.
  rewrite Forall_forall in Hall. exact (Hall _ Ho).
Qed.

Lemma scan_recorded_complete (data : list byte) (o : Z) (run : list byte) :
  (3 <= List.length run)%nat ->
  maximal_run data o run ->
  recorded (extract_strings_and_positions data) (str_of_bytes run) o.
Proof.
  intros H3 (before & after & -> & <- & Hrun & Hl & Hr).
  assert (Hne : run <> []) by (intros ->; simpl in H3; lia).
  assert (Hflush : recorded (flush (strings_positions (scan_loop before))
                                   (str_of_bytes run) (len before))
                            (str_of_bytes run) (len before)).
  { unfold flush. rewrite str_of_bytes_length.
    apply Nat.leb_le in H3. rewrite H3. unfold recorded.
    rewrite record_occurrence_get. eexists. split; [reflexivity|].
    apply in_or_app. right. now left. }
  destruct Hr as [->|(b & post & -> & Hb)].
  - rewrite app_nil_r. unfold extract_strings_and_positions.
    now rewrite scan_loop_run.
  - replace (before ++ run ++ b :: post)
      with (((before ++ run) ++ [b]) ++ post)
      by (now rewrite <- !app_assoc).
    apply recorded_extract_after.
    rewrite scan_loop_snoc, scan_loop_run by assumption.
    unfold scan_step. now rewrite Hb.
Qed.

(** X1.  The scan records offset [o] for the label [s] exactly when a
    maximal run of printable bytes of length at least three starts at
    [o] and spells [s]: nothing is missed, and nothing shorter, longer or
    cut out of a longer run is recorded. *)
Theorem X1_scan_records_exactly_maximal_runs :
  forall (data : list byte) (s : string) (o : Z),
    recorded (extract_strings_and_positions data) s o
    <-> exists run,
          (3 <= List.length run)%nat
          /\ str_of_bytes run = s
          /\ maximal_run data o run.
Proof.
  intros data s o. split.
  - apply scan_recorded_sound.
  - intros (run & H3 & <- & Hmax). now apply scan_recorded_complete.
Qed.

Lemma extract_entries_ok (data : list byte) :
  NoDup (dict_keys (extract_strings_and_positions data))
  /\ Forall (entry_ok data (len data)) (extract_strings_and_positions data).
Proof.
  destruct (scan_loop_inv data)
    as (Hnd & before & run & Hdata & Hrun & Hcur & Hstart & Hsp).
  split.
  - unfold extract_strings_and_positions. now apply flush_keys.
  - unfold extract_strings_and_positions. rewrite Hcur.
    destruct run as [|r0 run'].
    + unfold flush. simpl. revert Hsp. apply Forall_impl. intros e.
      apply entry_ok_bound. rewrite Hdata, len_app. unfold len. lia.
    + rewrite Hstart by discriminate. subst data.
      now apply flush_entries_final.
Qed.

(** X2.  A buffer that has no maximal printable run of three or more
    bytes (for instance an empty buffer, or one shorter than three
    bytes) scans to the empty map. *)
Theorem X2_scan_without_long_run_is_empty :
  forall (data : list byte),
    (forall o run, maximal_run data o run -> (List.length run < 3)%nat) ->
    extract_strings_and_positions data = [].
Proof.
  intros data Hshort.
  destruct (extract_strings_and_positions data) as [|[s offs] sp] eqn:E;
    [reflexivity|exfalso].
  destruct (extract_entries_ok data) as [_ Hall]. rewrite E in Hall.
  inversion Hall as [|? ? (_ & _ & Hne & _) _]; subst. simpl in Hne.
  destruct offs as [|o offs]; [now contradiction Hne|].
  assert (Hrec : recorded (extract_strings_and_positions data) s o).
  { rewrite E. exists (o :: offs). simpl. rewrite String.eqb_refl.
    split; [reflexivity|now left]. }
  apply scan_recorded_sound in Hrec.
  destruct Hrec as (run & H3 & _ & Hmax).
  specialize (Hshort _ _ Hmax). lia.
Qed.

Lemma X2_scan_without_long_run_is_empty_witness :
  extract_strings_and_positions [x41; x42; x00; x43] = [].
Proof.
  apply X2_scan_without_long_run_is_empty.
  intros o run (before & after & Hdata & _ & Hrun & _ & _).
  destruct (Nat.lt_ge_cases (List.length run) 3) as [Hlt|Hge];
    [exact Hlt|exfalso].
  assert (Hlen : List.length [x41; x42; x00; x43]
                 = (List.length before + (List.length run
                                          + List.length after))%nat).
  { rewrite Hdata, !length_app. reflexivity. }
  simpl in Hlen.
  destruct before as [|b0 [|b1 [|b2 before]]]; simpl in *;
    destruct run as [|r0 [|r1 [|r2 [|r3 run]]]]; simpl in *; try lia;
    injection Hdata as ? ? ? ?; subst;
    repeat match goal with
           | H : Forall _ (_ :: _) |- _ => inversion H; clear H; subst
           end; try discriminate.
Defined.

(** X3.  Labels recorded for a prefix of the buffer that ends in a
    non-printable byte are recorded, at the same offsets, for every
    continuation of that prefix: cutting a buffer after a non-printable
    byte loses only occurrences that start later. *)
Theorem X3_scan_prefix_stable :
  forall (pre rest : list byte) (b : byte) (s : string) (o : Z),
    printable b = false ->
    recorded (extract_strings_and_positions (pre ++ [b])) s o ->
    recorded (extract_strings_and_positions ((pre ++ [b]) ++ rest)) s o.
Proof.
  intros pre rest b s o Hb Hrec. apply recorded_extract_after.
  unfold extract_strings_and_positions in Hrec.
  assert (Hcur : current_string (scan_loop (pre ++ [b])) = "").
  { apply scan_loop_after_break. right. now exists pre, b. }
  rewrite Hcur in Hrec. exact Hrec.
Qed.

Lemma X3_scan_prefix_stable_witness :
  recorded (extract_strings_and_positions
              ((list_byte_of_string "duration" ++ [x00])
               ++ list_byte_of_string "numInferences"))
           "duration" 0.
Proof.
  apply X3_scan_prefix_stable; [reflexivity|].
  exists [0]. split; [reflexivity|now left].
Defined.

(** ** The offset search: outcomes *)

Lemma search_offsets_range :
  Forall (fun d => -100 <= d <= 100 /\ d <> -1) search_offsets.
Proof. repeat constructor; try lia; discriminate. Qed.

Lemma accepted_value_sound (data : list byte) (ty : string) (p d v : Z) :
  accepted_value data ty (p, d) = Some v ->
  extract_value_at_offset data p d = Ok (Some v)
  /\ rejected ty v = false
  /\ 0 <= v < 2 ^ 32.
Proof.
  unfold accepted_value. simpl. intros H. rewrite probe_total.
  destruct (in_window data (p + d)); [|discriminate].
  destruct (rejected ty (u32_le_at data (p + d))) eqn:E; [discriminate|].
  injection H as <-. repeat split; try assumption; apply u32_le_at_range.
Qed.

Lemma accepted_value_none (data : list byte) (ty : string) (p d : Z) :
  accepted_value data ty (p, d) = None <->
  forall w, extract_value_at_offset data p d = Ok (Some w) ->
            rejected ty w = true.
Proof.
  unfold accepted_value. simpl. rewrite probe_total.
  destruct (in_window data (p + d)).
  - destruct (rejected ty (u32_le_at data (p + d))) eqn:E.
    + split; [|reflexivity]. intros _ w Hw. injection Hw as <-. exact E.
    + split; [discriminate|]. intros H.
      specialize (H _ eq_refl). congruence.
  - split; [|reflexivity]. intros _ w Hw. discriminate Hw.
Qed.

Lemma in_probe_pairs (positions : list Z) (p d : Z) :
  In (p, d) (probe_pairs positions) <-> In p positions /\ In d search_offsets.
Proof.
  unfold probe_pairs. rewrite in_flat_map. split.
  - intros (p' & Hp' & Hin). apply in_map_iff in Hin.
    destruct Hin as (d' & E & Hd'). injection E as -> ->. now split.
  - intros [Hp Hd]. exists p. split; [exact Hp|].
    apply in_map_iff. now exists d.
Qed.

Lemma probe_pairs_app (l1 l2 : list Z) :
  probe_pairs (l1 ++ l2) = probe_pairs l1 ++ probe_pairs l2.
Proof. unfold probe_pairs. apply flat_map_app. Qed.

(** X4.  The search reports [(None, -1)] on failure and nothing else
    with [-1]: a returned value is absent exactly when the returned
    offset is [-1].  A returned value comes with one of the 42 deltas,
    which lies in [-100, 100], fits 32 bits, is non-negative and passes
    the validation of the metric's kind. *)
Theorem X4_search_sentinel_unambiguous :
  forall (data : list byte) (positions : list Z) (info : pattern_info)
         (value : option Z) (offset : Z),
    extract_metric_value data positions info = Ok (value, offset) ->
    (value = None <-> offset = -1)
    /\ forall v, value = Some v ->
         In offset search_offsets
         /\ -100 <= offset <= 100
         /\ 0 <= v < 2 ^ 32
         /\ rejected (pi_type info) v = false.
Proof.
  intros data positions info value offset H.
  rewrite extract_metric_value_reading in H. unfold reading in H.
  destruct (first_accepted data (pi_type info) (probe_pairs positions))
    as [[[p d] w]|] eqn:E; simpl in H; injection H as <- <-.
  - destruct (first_accepted_split _ _ _ E) as (pre & post & Heq & _ & Hpd).
    assert (Hin : In (p, d) (probe_pairs positions)).
    { rewrite Heq. apply in_or_app. right. now left. }
    apply in_probe_pairs in Hin. destruct Hin as [_ Hd].
    pose proof search_offsets_range as Hr. rewrite Forall_forall in Hr.
    destruct (Hr _ Hd) as [Hrange Hneq].
    apply accepted_value_sound in Hpd. destruct Hpd as (_ & Hrej & Hv).
    split.
    + split; [discriminate|]. intros ->. now contradiction Hneq.
    + intros v Ev. injection Ev as <-. repeat split; try assumption; lia.
  - split; [split; reflexivity|]. intros v Ev. discriminate Ev.
Qed.

Lemma X4_search_sentinel_unambiguous_witness :
  (Some 500 = None <-> -12 = -1)
  /\ forall v, Some 500 = Some v ->
       In (-12) search_offsets
       /\ -100 <= -12 <= 100
       /\ 0 <= v < 2 ^ 32
       /\ rejected "timing" v = false.
Proof.
  apply (@X4_search_sentinel_unambiguous two_occurrence_buffer [10; 200]
           (timing_us "duration_us") (Some 500) (-12)).
  vm_compute. reflexivity.
Defined.

(** X5.  The search fails exactly when every probe, at every occurrence
    and every delta, is out of bounds or reads a value the validation
    rejects; in particular it fails on an empty occurrence list. *)
Theorem X5_search_fails_iff_nothing_accepted :
  forall (data : list byte) (positions : list Z) (info : pattern_info),
    extract_metric_value data positions info = Ok (None, -1)
    <-> forall p d w,
          In p positions -> In d search_offsets ->
          extract_value_at_offset data p d = Ok (Some w) ->
          rejected (pi_type info) w = true.
Proof.
  intros data positions info.
  rewrite extract_metric_value_reading. unfold reading.
  destruct (first_accepted data (pi_type info) (probe_pairs positions))
    as [[[p d] w]|] eqn:E; simpl.
  - split.
    + intros H. injection H as _ Hd. exfalso.
      destruct (first_accepted_split _ _ _ E) as (pre & post & Heq & _ & _).
      assert (Hin : In (p, d) (probe_pairs positions)).
      { rewrite Heq. apply in_or_app. right. now left. }
      apply in_probe_pairs in Hin. destruct Hin as [_ Hin].
      pose proof search_offsets_range as Hr. rewrite Forall_forall in Hr.
      destruct (Hr _ Hin) as [_ Hneq]. now apply Hneq.
    + intros H. exfalso.
      destruct (first_accepted_split _ _ _ E) as (pre & post & Heq & _ & Hpd).
      assert (Hin : In (p, d) (probe_pairs positions)).
      { rewrite Heq. apply in_or_app. right. now left. }
      apply in_probe_pairs in Hin. destruct Hin as [Hp Hd].
      apply accepted_value_sound in Hpd. destruct Hpd as (Hv & Hrej & _).
      specialize (H _ _ _ Hp Hd Hv). congruence.
  - split; [|reflexivity]. intros _ p d w Hp Hd Hw.
    apply first_accepted_none in E. rewrite Forall_forall in E.
    assert (Hin : In (p, d) (probe_pairs positions))
      by (apply in_probe_pairs; now split).
    specialize (E _ Hin). rewrite accepted_value_none in E. now apply E.
Qed.

(** X6.  Searching a concatenation of occurrence lists is searching the
    first list and, only if that fails, the second: later occurrences
    never change a successful result. *)
Theorem X6_search_over_appended_occurrences :
  forall (data : list byte) (l1 l2 : list Z) (info : pattern_info),
    extract_metric_value data (l1 ++ l2) info
    = (r <- extract_metric_value data l1 info ;;
       match r with
       | (Some v, offset) => Ok (Some v, offset)
       | (None, _) => extract_metric_value data l2 info
       end).
Proof.
  intros data l1 l2 info.
  rewrite !extract_metric_value_reading. unfold reading.
  rewrite probe_pairs_app, first_accepted_app.
  destruct (first_accepted data (pi_type info) (probe_pairs l1))
    as [[[p d] w]|]; reflexivity.
Qed.

(** ** The report: consistency of its parts *)

Section ReportParts.
Variables (data : list byte) (sp : dict (list Z)).

Lemma fold_details_eq (entries : dict pattern_info) (st : parse_state) :
  ps_details (fold_left (parse_step_outcome data sp) entries st)
  = ps_details st ++ flat_map (entry_detail data sp) entries.
Proof.
  revert st. induction entries as [|e entries IH]; intros st.
  - simpl. now rewrite app_nil_r.
  - change (fold_left (parse_step_outcome data sp) (e :: entries) st)
      with (fold_left (parse_step_outcome data sp) entries
              (parse_step_outcome data sp st e)).
    rewrite IH. cbn [flat_map]. unfold parse_step_outcome, entry_detail.
    destruct (dict_get (fst e) sp) as [positions|]; [|reflexivity].
    destruct (reading data positions (snd e)) as [[v|] off];
      cbn [ps_details]; [|reflexivity].
    now rewrite <- app_assoc.
Qed.

Lemma fold_metrics_eq (entries : dict pattern_info) (st : parse_state) :
  NoDup (dict_keys (ps_metrics st)
         ++ map (fun e => pi_key (snd e)) entries) ->
  ps_metrics (fold_left (parse_step_outcome data sp) entries st)
  = ps_metrics st ++ flat_map (entry_metric data sp) entries.
Proof.
  revert st. induction entries as [|e entries IH]; intros st Hnd.
  - simpl. now rewrite app_nil_r.
  - change (fold_left (parse_step_outcome data sp) (e :: entries) st)
      with (fold_left (parse_step_outcome data sp) entries
              (parse_step_outcome data sp st e)).
    cbn [map] in Hnd.
    assert (Hfresh : dict_get (pi_key (snd e)) (ps_metrics st) = None).
    { apply dict_get_None. apply NoDup_remove_2 in Hnd.
      intros Hin. apply Hnd. apply in_or_app. now left. }
    assert (Hnd1 : NoDup (dict_keys (ps_metrics st)
                          ++ map (fun e => pi_key (snd e)) entries))
      by now apply NoDup_remove_1 in Hnd.
    cbn [flat_map]. unfold entry_metric at 1.
    unfold parse_step_outcome at 2.
    destruct (dict_get (fst e) sp) as [positions|];
      [|now apply IH].
    destruct (reading data positions (snd e)) as [[v|] off].
    + rewrite IH; cbn [ps_metrics].
      * rewrite dict_set_absent by exact Hfresh. now rewrite <- app_assoc.
      * rewrite dict_set_absent by exact Hfresh.
        unfold dict_keys in *. rewrite map_app. cbn [map fst].
        now rewrite <- app_assoc.
    + rewrite IH; [reflexivity|exact Hnd1].
Qed.

Lemma fold_count_eq (entries : dict pattern_info) (st : parse_state) :
  ps_extracted_count (fold_left (parse_step_outcome data sp) entries st)
  = ps_extracted_count st + len (flat_map (entry_detail data sp) entries).
Proof.
  revert st. induction entries as [|e entries IH]; intros st.
  - simpl. unfold len. simpl. lia.
  - change (fold_left (parse_step_outcome data sp) (e :: entries) st)
      with (fold_left (parse_step_outcome data sp) entries
              (parse_step_outcome data sp st e)).
    rewrite IH. cbn [flat_map]. rewrite len_app.
    unfold parse_step_outcome, entry_detail.
    destruct (dict_get (fst e) sp) as [positions|];
      [|unfold len; simpl; lia].
    destruct (reading data positions (snd e)) as [[v|] off];
      cbn [ps_extracted_count]; unfold len; cbn [List.length]; lia.
Qed.

Lemma entry_detail_metric (e : string * pattern_info) :
  map detail_metric (entry_detail data sp e) = entry_metric data sp e.
Proof.
  unfold entry_detail, entry_metric.
  destruct (dict_get (fst e) sp) as [positions|]; [|reflexivity].
  now destruct (reading data positions (snd e)) as [[v|] off].
Qed.

Lemma entry_detail_entry (e : string * pattern_info) (d : Detail) :
  In d (entry_detail data sp e) -> detail_entry d = e.
Proof.
  unfold entry_detail.
  destruct (dict_get (fst e) sp) as [positions|]; [|intros []].
  destruct (reading data positions (snd e)) as [[v|] off]; [|intros []].
  intros [<-|[]]. unfold detail_entry. simpl.
  destruct e as [name [k u t]]. reflexivity.
Qed.
End ReportParts.

Lemma final_state_details (data : list byte) :
  ps_details (final_state data)
  = flat_map (entry_detail data (extract_strings_and_positions data))
             metric_patterns.
Proof. unfold final_state. now rewrite fold_details_eq. Qed.

Lemma final_state_metrics (data : list byte) :
  ps_metrics (final_state data)
  = flat_map (entry_metric data (extract_strings_and_positions data))
             metric_patterns.
Proof.
  unfold final_state. rewrite fold_metrics_eq; [reflexivity|].
  exact metric_keys_unique.
Qed.

Lemma final_state_count (data : list byte) :
  ps_extracted_count (final_state data) = len (ps_details (final_state data)).
Proof.
  rewrite final_state_details. unfold final_state.
  now rewrite fold_count_eq.
Qed.

Lemma map_flat_map {A B C : Type} (f : B -> C) (g : A -> list B)
    (l : list A) :
  map f (flat_map g l) = flat_map (fun x => map f (g x)) l.
Proof.
  induction l as [|x l IH]; simpl; [reflexivity|].
  now rewrite map_app, IH.
Qed.

Lemma final_state_detail_metrics (data : list byte) :
  map detail_metric (ps_details (final_state data))
  = ps_metrics (final_state data).
Proof.
  rewrite final_state_details, final_state_metrics, map_flat_map.
  apply flat_map_ext. intros e. apply entry_detail_metric.
Qed.

Lemma NoDup_map_filter {A B : Type} (f : A -> B) (g : A -> bool)
    (l : list A) :
  NoDup (map f l) -> NoDup (map f (filter g l)).
Proof.
  induction l as [|x l IH]; simpl; intros Hnd; [constructor|].
  inversion Hnd as [|? ? Hnotin Hnd']; subst.
  destruct (g x); simpl; [|now apply IH].
  constructor; [|now apply IH].
  intros Hin. apply Hnotin. apply in_map_iff in Hin.
  destruct Hin as (x' & Hx' & Hin). apply filter_In in Hin.
  apply in_map_iff. exists x'. now split.
Qed.

Lemma final_state_keys (data : list byte) :
  dict_keys (ps_metrics (final_state data))
  = map (fun e => pi_key (snd e))
        (filter (succeeded data (extract_strings_and_positions data))
                metric_patterns).
Proof.
  unfold final_state.
  rewrite fold_metrics_keys by exact metric_keys_unique. reflexivity.
Qed.

Lemma final_state_keys_unique (data : list byte) :
  NoDup (dict_keys (ps_metrics (final_state data))).
Proof.
  rewrite final_state_keys. apply NoDup_map_filter.
  exact metric_keys_unique.
Qed.

(** X7.  In every report the number of extracted metrics, the size of
    the metric map and the number of extraction details agree; the
    details, read as (key, value) pairs, are the metric map entry for
    entry and in the same order; no key occurs twice; and looking up a
    detail's key in the metric map gives the detail's value. *)
Theorem X7_report_parts_agree :
  forall (file_path : string) (data : list byte),
    exists r,
      parse_file file_path data = Ok r
      /\ ei_metrics_extracted (extraction_info r) = len (metrics r)
      /\ len (metrics r) = len (raw_extraction_details r)
      /\ map detail_metric (raw_extraction_details r) = metrics r
      /\ NoDup (dict_keys (metrics r))
      /\ forall d, In d (raw_extraction_details r) ->
                   dict_get (d_key d) (metrics r) = Some (d_value d).
Proof.
  intros file_path data. eexists. split; [apply parse_file_ok|].
  cbn [raw_extraction_details extraction_info metrics ei_metrics_extracted].
  pose proof (final_state_detail_metrics data) as Hm.
  pose proof (final_state_keys_unique data) as Hnd.
  repeat split.
  - rewrite final_state_count, <- Hm. unfold len. now rewrite length_map.
  - rewrite <- Hm. unfold len. now rewrite length_map.
  - exact Hm.
  - exact Hnd.
  - intros d Hd. apply In_dict_get; [exact Hnd|].
    rewrite <- Hm. change (d_key d, d_value d) with (detail_metric d).
    now apply in_map.
Qed.

(** ** The report: provenance, limits and the found/failed split *)

Lemma reading_value_sound (data : list byte) (positions : list Z)
    (info : pattern_info) (v off : Z) :
  reading data positions info = (Some v, off) ->
  In off search_offsets
  /\ 0 <= v < 2 ^ 32
  /\ rejected (pi_type info) v = false.
Proof.
  unfold reading. intros H.
  destruct (first_accepted data (pi_type info) (probe_pairs positions))
    as [[[p d] w]|] eqn:E; simpl in H; [|discriminate].
  injection H as -> ->.
  destruct (first_accepted_split _ _ _ E) as (pre & post & Heq & _ & Hpd).
  assert (Hin : In (p, off) (probe_pairs positions)).
  { rewrite Heq. apply in_or_app. right. now left. }
  apply in_probe_pairs in Hin. destruct Hin as [_ Hd].
  apply accepted_value_sound in Hpd. destruct Hpd as (_ & Hrej & Hv).
  now repeat split.
Qed.

Lemma entry_detail_reading (data : list byte) (sp : dict (list Z))
    (e : string * pattern_info) (d : Detail) :
  In d (entry_detail data sp e) ->
  exists positions,
    dict_get (fst e) sp = Some positions
    /\ reading data positions (snd e) = (Some (d_value d), d_offset_used d)
    /\ d_type d = pi_type (snd e).
Proof.
  unfold entry_detail.
  destruct (dict_get (fst e) sp) as [positions|]; [|intros []].
  destruct (reading data positions (snd e)) as [[v|] off] eqn:E;
    [|intros []].
  intros [<-|[]]. exists positions. now repeat split.
Qed.

Lemma metric_types :
  Forall (fun e => pi_type (snd e) = "timing" \/ pi_type (snd e) = "counter")
         metric_patterns.
Proof. repeat constructor; (now left) || (now right). Qed.

Lemma metric_labels_unique : NoDup (dict_keys metric_patterns).
Proof.
  repeat (constructor;
          [simpl; intros H;
           repeat (destruct H as [H|H]; [discriminate H|]); exact H|]).
  constructor.
Qed.

(** X8.  Every extraction detail of a report is a row of the metric
    definition table (pattern, key, unit and type together), its offset
    is one of the 42 deltas, and its value is between 0 and 10,000,000,
    and at most 1,000,000 when the type is [counter]; all values of the
    metric map lie between 0 and 10,000,000. *)
Theorem X8_report_values_within_limits :
  forall (file_path : string) (data : list byte),
    exists r,
      parse_file file_path data = Ok r
      /\ (forall d, In d (raw_extraction_details r) ->
            In (detail_entry d) metric_patterns
            /\ In (d_offset_used d) search_offsets
            /\ 0 <= d_value d <= 10000000
            /\ (d_type d = "counter" -> d_value d <= 1000000))
      /\ forall k v, In (k, v) (metrics r) -> 0 <= v <= 10000000.
Proof.
  intros file_path data. eexists. split; [apply parse_file_ok|].
  cbn [raw_extraction_details metrics].
  assert (Hd : forall d, In d (ps_details (final_state data)) ->
            In (detail_entry d) metric_patterns
            /\ In (d_offset_used d) search_offsets
            /\ 0 <= d_value d <= 10000000
            /\ (d_type d = "counter" -> d_value d <= 1000000)).
  { intros d Hin. rewrite final_state_details in Hin.
    apply in_flat_map in Hin. destruct Hin as (e & He & Hin).
    pose proof (entry_detail_entry _ _ _ _ Hin) as Hentry.
    destruct (entry_detail_reading _ _ _ _ Hin) as (positions & _ & Hr & Ht).
    apply reading_value_sound in Hr. destruct Hr as (Hoff & Hv & Hrej).
    pose proof metric_types as Hty. rewrite Forall_forall in Hty.
    specialize (Hty _ He). rewrite <- Ht in Hty, Hrej.
    split; [now rewrite Hentry|]. split; [exact Hoff|].
    destruct Hty as [Hty|Hty]; rewrite Hty in Hrej.
    - rewrite rejected_timing in Hrej. apply Z.ltb_ge in Hrej.
      split; [lia|]. intros Hc. rewrite Hc in Hty. discriminate Hty.
    - rewrite rejected_counter in Hrej. apply Z.ltb_ge in Hrej.
      split; [lia|]. intros _. lia. }
  split; [exact Hd|].
  intros k v Hin. rewrite <- final_state_detail_metrics in Hin.
  apply in_map_iff in Hin. destruct Hin as (d & E & Hin).
  injection E as _ <-. now apply Hd.
Qed.

Lemma in_map_fst_filter {B : Type} (f : string * B -> bool)
    (l : list (string * B)) (name : string) (b : B) :
  NoDup (map fst l) -> In (name, b) l ->
  (In name (map fst (filter f l)) <-> f (name, b) = true).
Proof.
  intros Hnd Hin. split.
  - intros H. apply in_map_iff in H. destruct H as ([name' b'] & E & H).
    simpl in E. subst name'. apply filter_In in H. destruct H as [H Hf].
    assert (b' = b); [|now subst].
    clear Hf f. induction l as [|[k x] l IH]; [destruct Hin|].
    simpl in Hnd. inversion Hnd as [|? ? Hnotin Hnd']; subst.
    destruct H as [E|H]; destruct Hin as [E'|Hin].
    + congruence.
    + injection E as -> ->. exfalso. apply Hnotin.
      apply in_map_iff. now exists (name, b).
    + injection E' as -> ->. exfalso. apply Hnotin.
      apply in_map_iff. now exists (name, b').
    + now apply IH.
  - intros Hf. apply in_map_iff. exists (name, b). split; [reflexivity|].
    apply filter_In. now split.
Qed.

Lemma succeeded_or_failed (data : list byte) (sp : dict (list Z))
    (e : string * pattern_info) :
  dict_mem (fst e) sp
  = xorb (succeeded data sp e) (found_without_value data sp e).
Proof.
  unfold dict_mem, succeeded, found_without_value.
  destruct (dict_get (fst e) sp) as [positions|]; [|reflexivity].
  now destruct (fst (reading data positions (snd e))).
Qed.

Lemma succeeded_not_failed (data : list byte) (sp : dict (list Z))
    (e : string * pattern_info) :
  succeeded data sp e && found_without_value data sp e = false.
Proof.
  unfold succeeded, found_without_value.
  destruct (dict_get (fst e) sp) as [positions|]; [|reflexivity].
  now destruct (fst (reading data positions (snd e))).
Qed.

(** X9.  A label of the definition table that the scan found appears
    either among the extraction details or in the failed-extractions
    list, never in both; a table label the scan did not find appears
    in neither; and both lists name table labels only. *)
Theorem X9_found_labels_split :
  forall (file_path : string) (data : list byte),
    let sp := extract_strings_and_positions data in
    exists r,
      parse_file file_path data = Ok r
      /\ (forall name, In name (dict_keys metric_patterns) ->
            (dict_mem name sp = true
             <-> In name (map d_pattern (raw_extraction_details r))
                 \/ In name (ei_failed_extractions (extraction_info r)))
            /\ ~ (In name (map d_pattern (raw_extraction_details r))
                  /\ In name (ei_failed_extractions (extraction_info r))))
      /\ forall name,
           In name (map d_pattern (raw_extraction_details r))
           \/ In name (ei_failed_extractions (extraction_info r)) ->
           In name (dict_keys metric_patterns).
Proof.
  intros file_path data sp. eexists. split; [apply parse_file_ok|].
  cbn [raw_extraction_details extraction_info ei_failed_extractions].
  unfold final_state. fold sp. rewrite fold_details, fold_failed.
  cbn [ps_details ps_failed map app].
  split.
  - intros name Hname. unfold dict_keys in Hname.
    apply in_map_iff in Hname. destruct Hname as ([name' info] & E & Hin).
    simpl in E. subst name'.
    rewrite (@in_map_fst_filter _ (succeeded data sp) metric_patterns
               name info metric_labels_unique Hin).
    rewrite (@in_map_fst_filter _ (found_without_value data sp)
               metric_patterns name info metric_labels_unique Hin).
    pose proof (succeeded_or_failed data sp (name, info)) as Hx.
    pose proof (succeeded_not_failed data sp (name, info)) as Hy.
    simpl in Hx. rewrite Hx.
    destruct (succeeded data sp (name, info));
      destruct (found_without_value data sp (name, info));
      try discriminate Hy; simpl; intuition discriminate.
  - intros name [H|H]; apply in_map_iff in H;
      destruct H as (e & <- & H); apply filter_In in H;
      destruct H as [H _]; unfold dict_keys; now apply in_map.
Qed.

(** X10.  When the scan finds no label of the definition table, the
    report is empty: no metric, no extraction detail, no failed
    extraction and a count of zero; from such a report no derived metric
    is computed. *)
Theorem X10_no_table_label_no_metrics :
  forall (file_path : string) (data : list byte),
    (forall name, In name (dict_keys metric_patterns) ->
                  dict_mem name (extract_strings_and_positions data) = false) ->
    exists r,
      parse_file file_path data = Ok r
      /\ metrics r = []
      /\ raw_extraction_details r = []
      /\ ei_failed_extractions (extraction_info r) = []
      /\ ei_metrics_extracted (extraction_info r) = 0
      /\ forall R : float_runtime,
           calculate_derived_metrics R (metrics r) = ([], Ok []).
Proof.
  intros file_path data Habsent. eexists. split; [apply parse_file_ok|].
  cbn [raw_extraction_details extraction_info metrics
       ei_failed_extractions ei_metrics_extracted].
  assert (Hget : forall e, In e metric_patterns ->
            dict_get (fst e) (extract_strings_and_positions data) = None).
  { intros e He. specialize (Habsent (fst e)).
    unfold dict_mem in Habsent.
    destruct (dict_get (fst e) (extract_strings_and_positions data));
      [|reflexivity].
    discriminate Habsent. unfold dict_keys. now apply in_map. }
  assert (Hd : ps_details (final_state data) = []).
  { rewrite final_state_details.
    generalize Hget. generalize metric_patterns as l.
    induction l as [|e l IH]; intros H; [reflexivity|].
    cbn [flat_map]. unfold entry_detail at 1.
    rewrite (H e) by now left. simpl. apply IH.
    intros e' He'. apply H. now right. }
  assert (Hm : ps_metrics (final_state data) = []).
  { rewrite <- final_state_detail_metrics, Hd. reflexivity. }
  assert (Hf : ps_failed (final_state data) = []).
  { unfold final_state. rewrite fold_failed. cbn [ps_failed app].
    generalize Hget. generalize metric_patterns as l.
    induction l as [|e l IH]; intros H; [reflexivity|].
    cbn [filter]. unfold found_without_value at 1.
    rewrite (H e) by now left. apply IH.
    intros e' He'. apply H. now right. }
  rewrite final_state_count, Hd, Hm, Hf. repeat split.
Qed.

Lemma X10_no_table_label_no_metrics_witness :
  exists r,
    parse_file "f" (list_byte_of_string "hello world") = Ok r
    /\ metrics r = []
    /\ raw_extraction_details r = []
    /\ ei_failed_extractions (extraction_info r) = []
    /\ ei_metrics_extracted (extraction_info r) = 0
    /\ forall R : float_runtime,
         calculate_derived_metrics R (metrics r) = ([], Ok []).
Proof.
  apply X10_no_table_label_no_metrics.
  intros name Hname. unfold dict_keys in Hname. simpl in Hname.
  repeat (destruct Hname as [<-|Hname]; [vm_compute; reflexivity|]).
  destruct Hname.
Defined.

(** ** Derived metrics: the value of every rule *)

(** X11.  On 32-bit metric values the derived map holds
    [primary_execution_time_us] exactly when the metrics hold
    [qnn_execute_time_us] or, failing that,
    [accelerator_execute_time_us], with that value.  It holds the
    throughput and the average time per inference exactly when a primary
    time [t] and [num_inferences = n] are present and both positive; the
    values are the float quotients [(1000000 * n) / t] and [t / n] of
    these integers. *)
Theorem X11_primary_time_and_throughput :
  forall (R : float_runtime) (metrics : dict Z),
    u32_metrics metrics = true ->
    exists derived,
      snd (calculate_derived_metrics R metrics) = Ok derived
      /\ dict_get "primary_execution_time_us" derived
         = option_map PyInt (primary_time metrics)
      /\ dict_get "throughput_inferences_per_second" derived
         = option_map (fun tn => PyFloat (float_div_int R (1000000 * snd tn)
                                                        (fst tn)))
                      (throughput_inputs metrics)
      /\ dict_get "avg_time_per_inference_us" derived
         = option_map (fun tn => PyFloat (float_div_int R (fst tn) (snd tn)))
                      (throughput_inputs metrics)
      /\ forall t n,
           throughput_inputs metrics = Some (t, n) ->
           primary_time metrics = Some t
           /\ dict_get "num_inferences" metrics = Some n
           /\ 0 < t /\ 0 < n.
Proof.
  intros R metrics Hu.
  destruct (@derived_spec R metrics Hu)
    as (d & E & _ & _ & P & T & A & _).
  exists d. split; [now rewrite E|].
  split; [exact P|]. split; [exact T|]. split; [exact A|].
  intros t n H. unfold throughput_inputs in H.
  destruct (primary_time metrics) as [t'|]; [|discriminate].
  destruct (dict_get "num_inferences" metrics) as [n'|]; [|discriminate].
  destruct ((0 <? t') && (0 <? n')) eqn:G; [|discriminate].
  injection H as -> ->. apply andb_true_iff in G.
  destruct G as [G1 G2]. apply Z.ltb_lt in G1, G2. now repeat split.
Qed.

Lemma X11_primary_time_and_throughput_witness :
  exists derived,
    snd (calculate_derived_metrics exact_runtime
           [("qnn_execute_time_us", 2000); ("num_inferences", 10)])
    = Ok derived
    /\ dict_get "primary_execution_time_us" derived = Some (PyInt 2000)
    /\ dict_get "throughput_inferences_per_second" derived
       = Some (PyFloat (float_div_int exact_runtime 10000000 2000))
    /\ dict_get "avg_time_per_inference_us" derived
       = Some (PyFloat (float_div_int exact_runtime 2000 10)).
Proof.
  destruct (@X11_primary_time_and_throughput exact_runtime
              [("qnn_execute_time_us", 2000); ("num_inferences", 10)]
              eq_refl)
    as (derived & Hs & Hp & Ht & Ha & _).
  exists derived. split; [exact Hs|]. split; [exact Hp|].
  split; [exact Ht|exact Ha].
Defined.

(** X12.  On 32-bit metric values the derived map holds
    [accelerator_efficiency_percent] exactly when
    [accelerator_execute_time_us = a] and [qnn_execute_time_us = q] are
    present with [q > 0]; the value is the float quotient [a / q]
    multiplied, as a float, by [100].  It holds [rpc_overhead_ratio]
    exactly when [rpc_execute_time_us = r] and
    [accelerator_execute_time_us = a] are present with [a > 0]; the value
    is the float quotient [r / a]. *)
Theorem X12_efficiency_and_rpc_overhead :
  forall (R : float_runtime) (metrics : dict Z),
    u32_metrics metrics = true ->
    exists derived,
      snd (calculate_derived_metrics R metrics) = Ok derived
      /\ dict_get "accelerator_efficiency_percent" derived
         = option_map
             (fun aq => PyFloat (float_mul R
                                   (float_div_int R (fst aq) (snd aq))
                                   (float_of_int R 100)))
             (ratio_inputs metrics "accelerator_execute_time_us"
                                   "qnn_execute_time_us")
      /\ dict_get "rpc_overhead_ratio" derived
         = option_map
             (fun ra => PyFloat (float_div_int R (fst ra) (snd ra)))
             (ratio_inputs metrics "rpc_execute_time_us"
                                   "accelerator_execute_time_us").
Proof.
  intros R metrics Hu.
  destruct (@derived_spec R metrics Hu)
    as (d & E & _ & _ & _ & _ & _ & _ & _ & _ & V & W).
  exists d. split; [now rewrite E|]. split; [exact V|exact W].
Qed.

Lemma X12_efficiency_and_rpc_overhead_witness :
  exists derived,
    snd (calculate_derived_metrics exact_runtime
           [("accelerator_execute_time_us", 1); ("qnn_execute_time_us", 3);
            ("rpc_execute_time_us", 5)])
    = Ok derived
    /\ dict_get "accelerator_efficiency_percent" derived
       = Some (PyFloat (float_mul exact_runtime
                          (float_div_int exact_runtime 1 3)
                          (float_of_int exact_runtime 100)))
    /\ dict_get "rpc_overhead_ratio" derived
       = Some (PyFloat (float_div_int exact_runtime 5 1)).
Proof.
  destruct (@X12_efficiency_and_rpc_overhead exact_runtime
              [("accelerator_execute_time_us", 1);
               ("qnn_execute_time_us", 3); ("rpc_execute_time_us", 5)]
              eq_refl)
    as (derived & Hs & He & Hr).
  exists derived. split; [exact Hs|]. split; [exact He|exact Hr].
Defined.

Lemma derived_keys_table_disjoint :
  forall k, In k derived_keys ->
            ~ In k (map (fun e => pi_key (snd e)) metric_patterns).
Proof.
  intros k Hk Hin. unfold derived_keys in Hk. simpl in Hk, Hin.
  repeat (destruct Hk as [<-|Hk];
          [repeat (destruct Hin as [Hin|Hin]; [discriminate Hin|]);
           exact Hin|]).
  exact Hk.
Qed.

(** X13.  On 32-bit metric values the calculation returns a derived
    map that has no key outside the eleven derived-metric names and no
    key twice, and none of these names is a key of the metric definition
    table: merging a derived map into a report's metric map never
    overwrites a primitive metric. *)
Theorem X13_derived_keys_are_derived_names :
  forall (R : float_runtime) (metrics : dict Z),
    u32_metrics metrics = true ->
    exists derived,
      snd (calculate_derived_metrics R metrics) = Ok derived
      /\ NoDup (dict_keys derived)
      /\ forall k, dict_mem k derived = true ->
           In k derived_keys
           /\ ~ In k (map (fun e => pi_key (snd e)) metric_patterns).
Proof.
  intros R metrics Hu.
  destruct (@derived_spec R metrics Hu) as (d & E & N & F & _).
  exists d. split; [now rewrite E|]. split; [exact N|].
  intros k Hk.
  assert (Hin : In k derived_keys).
  { destruct (in_dec string_dec k derived_keys) as [Hin|Hout];
      [exact Hin|exfalso].
    unfold dict_mem in Hk. rewrite (F k Hout) in Hk. discriminate Hk. }
  split; [exact Hin|]. now apply derived_keys_table_disjoint.
Qed.

Lemma X13_derived_keys_are_derived_names_witness :
  exists derived,
    snd (calculate_derived_metrics exact_runtime
           [("qnn_execute_time_us", 2000); ("num_inferences", 10)])
    = Ok derived
    /\ NoDup (dict_keys derived)
    /\ forall k, dict_mem k derived = true ->
         In k derived_keys
         /\ ~ In k (map (fun e => pi_key (snd e)) metric_patterns).
Proof.
  exact (@X13_derived_keys_are_derived_names exact_runtime
           [("qnn_execute_time_us", 2000); ("num_inferences", 10)]
           eq_refl).
Defined.

(** X14.  On the metric map of a report the bucket tests by substring
    and by the suffix [time_us] select the same keys, because every key
    comes from the definition table: there the execution, finalize and
    deinit buckets are the values of the keys that contain [execute],
    [finalize] or [deinit] and end with [time_us]. *)
Theorem X14_report_buckets_by_suffix :
  forall (file_path : string) (data : list byte),
    exists r,
      parse_file file_path data = Ok r
      /\ buckets (metrics r)
         = (bucket_values (stated_bucket_test "execute") (metrics r),
            bucket_values (stated_bucket_test "finalize") (metrics r),
            bucket_values (stated_bucket_test "deinit") (metrics r)).
Proof.
  intros file_path data. eexists. split; [apply parse_file_ok|].
  cbn [metrics]. rewrite buckets_spec.
  assert (Hk : forall k, In k (dict_keys (ps_metrics (final_state data))) ->
            in_execution k = stated_bucket_test "execute" k
            /\ in_finalize k = stated_bucket_test "finalize" k
            /\ in_deinit k = stated_bucket_test "deinit" k).
  { intros k Hin. rewrite final_state_keys in Hin.
    apply in_map_iff in Hin. destruct Hin as (e & <- & Hin).
    apply filter_In in Hin. destruct Hin as [Hin _].
    pose proof table_keys_tests_agree as H.
    rewrite forallb_forall in H. specialize (H _ Hin).
    apply andb_true_iff in H. destruct H as [H H3].
    apply andb_true_iff in H. destruct H as [H1 H2].
    apply Bool.eqb_prop in H1, H2, H3. now repeat split. }
  f_equal; [f_equal|]; apply bucket_values_ext; intros k Hin;
    now apply Hk.
Qed.

(** ** File metadata and recorded positions *)

Lemma last_filter_cases (f : string -> bool) (l : list string) :
  (filter f l = [] /\ last (filter f l) "" = "")
  \/ (In (last (filter f l) "") l /\ f (last (filter f l) "") = true).
Proof.
  destruct (filter f l) as [|x xs] eqn:E; [now left|right].
  assert (Hin : In (last (x :: xs) "") (filter f l)).
  { rewrite E. clear E. revert x.
    induction xs as [|y xs IH]; intros x; [now left|].
    change (last (x :: y :: xs) "") with (last (y :: xs) "").
    right. apply IH. }
  apply filter_In in Hin. exact Hin.
Qed.

Lemma filter_nil_iff {A : Type} (f : A -> bool) (l : list A) :
  filter f l = [] <-> forall x, In x l -> f x = false.
Proof.
  induction l as [|a l IH]; simpl.
  - split; [intros _ x []|reflexivity].
  - destruct (f a) eqn:E.
    + split; [discriminate|]. intros H. specialize (H a (or_introl eq_refl)).
      congruence.
    + rewrite IH. split.
      * intros H x [<-|Hx]; [exact E|now apply H].
      * intros H x Hx. apply H. now right.
Qed.

(** X15.  [backend_version] is empty exactly when no scanned label
    contains [v2.35.0], and otherwise it is a scanned label containing
    it; [graph_name] is empty exactly when no scanned label contains one
    of the three graph substrings without containing [v2.35.0], and
    otherwise it is such a label. *)
Theorem X15_metadata_empty_iff_no_match :
  forall (file_path : string) (data : list byte),
    let labels := dict_keys (extract_strings_and_positions data) in
    let graph_only := fun s => negb (has_version s) && has_graph s in
    exists r,
      parse_file file_path data = Ok r
      /\ (fi_backend_version (file_info r) = ""
          <-> forall s, In s labels -> has_version s = false)
      /\ (fi_backend_version (file_info r) <> "" ->
          In (fi_backend_version (file_info r)) labels
          /\ has_version (fi_backend_version (file_info r)) = true)
      /\ (fi_graph_name (file_info r) = ""
          <-> forall s, In s labels -> graph_only s = false)
      /\ (fi_graph_name (file_info r) <> "" ->
          In (fi_graph_name (file_info r)) labels
          /\ graph_only (fi_graph_name (file_info r)) = true).
Proof.
  intros file_path data labels graph_only. eexists.
  split; [apply parse_file_ok|].
  cbn [file_info fi_backend_version fi_graph_name].
  unfold extract_metadata. rewrite fold_metadata. cbn [fst snd].
  fold labels. fold graph_only.
  assert (H : forall f : string -> bool, f "" = false ->
            (last (filter f labels) "" = ""
             <-> forall s, In s labels -> f s = false)
            /\ (last (filter f labels) "" <> "" ->
                In (last (filter f labels) "") labels
                /\ f (last (filter f labels) "") = true)).
  { intros f Hf.
    destruct (last_filter_cases f labels) as [[Hnil Hlast]|[Hin Htrue]].
    - split.
      + split; [intros _; now apply filter_nil_iff|intros _; exact Hlast].
      + intros Hne. now contradiction Hne.
    - split.
      + split.
        * intros E. rewrite E in Htrue. congruence.
        * intros Hall. specialize (Hall _ Hin). congruence.
      + intros _. now split. }
  destruct (H has_version eq_refl) as [Hv1 Hv2].
  destruct (H graph_only eq_refl) as [Hg1 Hg2].
  repeat split; try apply Hv1; try apply Hg1;
    try (now apply Hv2); now apply Hg2.
Qed.

Lemma zeros_length (k : nat) : String.length (zeros k) = k.
Proof. induction k as [|k IH]; simpl; congruence. Qed.

Lemma string_append_length (s1 s2 : string) :
  String.length (s1 ++ s2) = (String.length s1 + String.length s2)%nat.
Proof. induction s1 as [|c s1 IH]; simpl; congruence. Qed.

Lemma zfill_length (width : nat) (s : string) :
  String.length (zfill width s) = Nat.max width (String.length s).
Proof.
  unfold zfill. rewrite string_append_length, zeros_length. lia.
Qed.

(** X16.  The rendering of a position, [f"{n:04x}"], is at least four
    characters wide and injective: two positions are rendered alike only
    if they are equal, so a recorded position string identifies its
    offset. *)
Theorem X16_position_rendering_injective :
  (forall n, (4 <= String.length (format_04x n))%nat)
  /\ (forall n, parse_hex_field ("0x" ++ format_04x n) = Some n)
  /\ forall a b, format_04x a = format_04x b -> a = b.
Proof.
  split; [|split].
  - intros n. unfold format_04x. destruct (n <? 0).
    + rewrite string_append_length, zfill_length.
      change (String.length "-") with 1%nat. lia.
    + rewrite zfill_length. lia.
  - apply parse_hex_field_format.
  - intros a b H.
    pose proof (parse_hex_field_format a) as Ha.
    rewrite H, parse_hex_field_format in Ha. now injection Ha.
Qed.

(** ** CSV output *)














(** ** Probes and reports: further composition *)

Lemma byte_at_app (data ext : list byte) (i : Z) :
  0 <= i < len data -> byte_at (data ++ ext) i = byte_at data i.
Proof.
  intros H. unfold byte_at. f_equal. apply app_nth1. unfold len in H. lia.
Qed.

(** X18.  A probe whose four-byte window lies inside a buffer reads the
    same value after any bytes are appended to the buffer. *)
Theorem X18_probe_stable_under_append :
  forall (data ext : list byte) (position offset : Z),
    0 <= position + offset <= len data - 4 ->
    extract_value_at_offset (data ++ ext) position offset
    = extract_value_at_offset data position offset.
Proof.
  intros data ext position offset H.
  rewrite !probe_total. unfold in_window. rewrite len_app.
  pose proof (len_nonneg ext) as He.
  assert (E1 : (0 <=? position + offset) = true) by (apply Z.leb_le; lia).
  assert (E2 : (position + offset <=? len data - 4) = true)
    by (apply Z.leb_le; lia).
  assert (E3 : (position + offset <=? len data + len ext - 4) = true)
    by (apply Z.leb_le; lia).
  rewrite E1, E2, E3. simpl. do 2 f_equal.
  unfold u32_le_at. rewrite !byte_at_app by lia. reflexivity.
Qed.

Lemma X18_probe_stable_under_append_witness :
  extract_value_at_offset ([xf4; x01; x00; x00] ++ [xff; xff]) 0 0
  = extract_value_at_offset [xf4; x01; x00; x00] 0 0.
Proof.
  apply X18_probe_stable_under_append. unfold len. simpl. lia.
Defined.

Lemma search_offsets_head : search_offsets = 16 :: tl search_offsets.
Proof. reflexivity. Qed.

Lemma first_accepted_cons (data : list byte) (ty : string) (pd : Z * Z)
    (l : list (Z * Z)) :
  first_accepted data ty (pd :: l)
  = match accepted_value data ty pd with
    | Some v => Some (pd, v)
    | None => first_accepted data ty l
    end.
Proof. reflexivity. Qed.

Lemma reading_first_delta (data : list byte) (p : Z) (rest : list Z)
    (info : pattern_info) (v : Z) :
  extract_value_at_offset data p 16 = Ok (Some v) ->
  rejected (pi_type info) v = false ->
  reading data (p :: rest) info = (Some v, 16).
Proof.
  intros Hprobe Hrej.
  assert (Hacc : accepted_value data (pi_type info) (p, 16) = Some v).
  { unfold accepted_value. cbn [fst snd]. rewrite probe_total in Hprobe.
    destruct (in_window data (p + 16)); [|discriminate Hprobe].
    injection Hprobe as Hv. now rewrite Hv, Hrej. }
  unfold reading. rewrite probe_pairs_cons, search_offsets_head.
  rewrite map_cons, <- app_comm_cons, first_accepted_cons, Hacc.
  reflexivity.
Qed.

(** X19.  If the value sixteen bytes after the first occurrence of a
    table label is inside the buffer and passes the validation of the
    label's kind, the report takes exactly that value: the metric map
    holds it under the label's key, and the extraction detail records
    the first occurrence, the delta 16 and the offset actually read. *)
Theorem X19_first_delta_at_first_occurrence_wins :
  forall (file_path : string) (data : list byte) (label : string)
         (info : pattern_info) (p : Z) (rest : list Z) (v : Z),
    In (label, info) metric_patterns ->
    dict_get label (extract_strings_and_positions data) = Some (p :: rest) ->
    extract_value_at_offset data p 16 = Ok (Some v) ->
    rejected (pi_type info) v = false ->
    exists r,
      parse_file file_path data = Ok r
      /\ dict_get (pi_key info) (metrics r) = Some v
      /\ In (mk_Detail label (pi_key info) v
                       ("0x" ++ format_04x p)%string 16
                       ("0x" ++ format_04x (p + 16))%string
                       (pi_unit info) (pi_type info))
            (raw_extraction_details r).
Proof.
  intros file_path data label info p rest v Hin Hget Hprobe Hrej.
  eexists. split; [apply parse_file_ok|].
  cbn [raw_extraction_details metrics].
  assert (Hd : In (mk_Detail label (pi_key info) v
                             ("0x" ++ format_04x p)%string 16
                             ("0x" ++ format_04x (p + 16))%string
                             (pi_unit info) (pi_type info))
                  (ps_details (final_state data))).
  { rewrite final_state_details. apply in_flat_map.
    exists (label, info). split; [exact Hin|].
    unfold entry_detail. cbn [fst snd]. rewrite Hget.
    rewrite (@reading_first_delta data p rest info v Hprobe Hrej).
    now left. }
  split; [|exact Hd].
  apply In_dict_get; [apply final_state_keys_unique|].
  rewrite <- final_state_detail_metrics.
  apply in_map_iff. eexists. split; [|exact Hd]. reflexivity.
Qed.

Lemma X19_first_delta_at_first_occurrence_wins_witness :
  exists r,
    parse_file "f" single_occurrence_buffer = Ok r
    /\ dict_get "duration_us" (metrics r) = Some 500
    /\ In (mk_Detail "duration" "duration_us" 500 "0x0064" 16 "0x0074"
                     "microseconds" "timing")
          (raw_extraction_details r).
Proof.
  apply (@X19_first_delta_at_first_occurrence_wins
           "f" single_occurrence_buffer "duration" (timing_us "duration_us")
           100 [] 500).
  - simpl. tauto.
  - vm_compute. reflexivity.
  - vm_compute. reflexivity.
  - reflexivity.
Defined.

(** X20.  A table label that the scan found is reported as a failed
    extraction exactly when every probe around every one of its
    occurrences is out of bounds or rejected; a failed label contributes
    no metric. *)
Theorem X20_failed_iff_every_probe_rejected :
  forall (file_path : string) (data : list byte) (label : string)
         (info : pattern_info) (positions : list Z),
    In (label, info) metric_patterns ->
    dict_get label (extract_strings_and_positions data) = Some positions ->
    exists r,
      parse_file file_path data = Ok r
      /\ (In label (ei_failed_extractions (extraction_info r))
          <-> forall p d w,
                In p positions -> In d search_offsets ->
                extract_value_at_offset data p d = Ok (Some w) ->
                rejected (pi_type info) w = true)
      /\ (In label (ei_failed_extractions (extraction_info r)) ->
          dict_get (pi_key info) (metrics r) = None).
Proof.
  intros file_path data label info positions Hin Hget.
  eexists. split; [apply parse_file_ok|].
  cbn [extraction_info ei_failed_extractions metrics].
  set (sp := extract_strings_and_positions data) in *.
  assert (Hfailed : In label (ps_failed (final_state data))
                    <-> found_without_value data sp (label, info) = true).
  { unfold final_state. fold sp. rewrite fold_failed. cbn [ps_failed app].
    apply (@in_map_fst_filter _ (found_without_value data sp)
             metric_patterns label info metric_labels_unique Hin). }
  assert (Hfw : found_without_value data sp (label, info) = true
                <-> extract_metric_value data positions info
                    = Ok (None, -1)).
  { unfold found_without_value. cbn [fst snd]. rewrite Hget.
    rewrite extract_metric_value_reading. unfold reading.
    destruct (first_accepted data (pi_type info) (probe_pairs positions))
      as [[[p d] w]|]; simpl; split; try discriminate; reflexivity. }
  split.
  - rewrite Hfailed, Hfw.
    rewrite extract_metric_value_reading. unfold reading.
    destruct (first_accepted data (pi_type info) (probe_pairs positions))
      as [[[p d] w]|] eqn:E; simpl.
    + split; [discriminate|]. intros H. exfalso.
      destruct (first_accepted_split _ _ _ E) as (pre & post & Heq & _ & Hpd).
      assert (Hpin : In (p, d) (probe_pairs positions)).
      { rewrite Heq. apply in_or_app. right. now left. }
      apply in_probe_pairs in Hpin. destruct Hpin as [Hp Hd].
      apply accepted_value_sound in Hpd. destruct Hpd as (Hv & Hrej & _).
      specialize (H _ _ _ Hp Hd Hv). congruence.
    + split; [|reflexivity]. intros _ p d w Hp Hd Hw.
      apply first_accepted_none in E. rewrite Forall_forall in E.
      assert (Hpin : In (p, d) (probe_pairs positions))
        by (apply in_probe_pairs; now split).
      specialize (E _ Hpin). rewrite accepted_value_none in E.
      now apply E.
  - intros Hf. apply Hfailed in Hf.
    apply dict_get_None. rewrite final_state_keys. fold sp.
    intros Hk. apply in_map_iff in Hk. destruct Hk as ([l' i'] & Hkey & Hk).
    apply filter_In in Hk. destruct Hk as [Hk Hs]. cbn [snd] in Hkey.
    assert (E : (l', i') = (label, info)).
    { pose proof metric_keys_unique as Hnd.
      revert Hin Hk Hkey Hnd. generalize metric_patterns as l.
      induction l as [|[l0 i0] l IH]; intros Hin Hk Hkey Hnd;
        [destruct Hin|].
      cbn [map snd] in Hnd. inversion Hnd as [|? ? Hnotin Hnd']; subst.
      destruct Hin as [Ein|Hin]; destruct Hk as [Ek|Hk].
      - congruence.
      - injection Ein as -> ->. exfalso. apply Hnotin.
        apply in_map_iff. exists (l', i'). now split.
      - injection Ek as -> ->. exfalso. apply Hnotin.
        apply in_map_iff. exists (label, info). split; [now symmetry|exact Hin].
      - now apply IH. }
    injection E as -> ->.
    pose proof (succeeded_not_failed data sp (label, info)) as Hx.
    rewrite Hs, Hf in Hx. discriminate Hx.
Qed.

Lemma X20_failed_iff_every_probe_rejected_witness :
  exists r,
    parse_file "f" (list_byte_of_string "duration") = Ok r
    /\ (In "duration" (ei_failed_extractions (extraction_info r))
        <-> forall p d w,
              In p [0] -> In d search_offsets ->
              extract_value_at_offset (list_byte_of_string "duration") p d
              = Ok (Some w) ->
              rejected "timing" w = true)
    /\ (In "duration" (ei_failed_extractions (extraction_info r)) ->
        dict_get "duration_us" (metrics r) = None).
Proof.
  apply (@X20_failed_iff_every_probe_rejected
           "f" (list_byte_of_string "duration") "duration"
           (timing_us "duration_us") [0]).
  - simpl. tauto.
  - vm_compute. reflexivity.
Defined.

